(** * Wallet timeline reconstruction (hooks/useWalletTimeline)

    A shallow embedding of the balance reconstruction engine of the staking
    dashboard: [calculateLockedAmount], [buildBalanceTimeline] and
    [parseWalletTimeline], with the properties of the engine stated and
    proved over it.

    Numbers.  A JavaScript [number] is modelled by [num]: an exact rational,
    or one of the three special values NaN, +Infinity, -Infinity, with the
    arithmetic of ECMAScript on them.  The binary64 rounding error of each
    operation, overflow to Infinity and the sign of zero are not modelled: a
    finite result is the exact rational.  A number read from JSON is therefore
    always finite; NaN and the infinities come from a division by zero or
    from an invalid date.

    Dates.  A [Date] is its time value.  [toISOString] is the function of
    ECMAScript; [Date.parse] and [localeCompare] depend on the host and are
    taken from a class [Host], so that every statement holds for every host.
    The comparisons of dates the engine makes on timestamp strings ([<=],
    [>], [Set.has]) are the comparisons of strings by code unit.

    Control.  The loop of [buildBalanceTimeline] is the fold of its body,
    [replayEvent], over the events.  [parseWalletTimeline] returns [None]
    when the call would not return: the enumeration of the unlock times of a
    schedule runs to +Infinity when its unlock rate is 0, which the guard of
    the accumulator excludes.

    Chart.  The data the chart of the timeline prepares from a lookup result
    (components/Staking/WalletTimelineChart: [truncateAddress], [chartData],
    the traces, the legend click and the legend grid) are embedded after the
    engine.  An object used as a map ([opsByType], [typeOffsets]) is the list
    of its own keys in the order of their insertion; the keys are the type
    names of the engine, none of which is an index or a property every
    object inherits.  React state, effects and the layout are not
    modelled. *)

From Stdlib Require Import ZArith QArith Qround Qabs List Bool Lia Lqa.
From Stdlib Require Import Ascii String Permutation Sorted.
Import ListNotations.

(* ================================================================== *)
(** * JavaScript numbers *)
(* ================================================================== *)

Module Num.

Inductive num : Type :=
| NaN
| PInf
| NInf
| Fin (q : Q).

Definition Qltb (x y : Q) : bool := negb (Qle_bool y x).

Definition zero : num := Fin 0.
Definition ofZ (z : Z) : num := Fin (inject_Z z).

Definition isNaN (a : num) : bool :=
  match a with NaN => true | _ => false end.

Definition isFinite (a : num) : bool :=
  match a with Fin _ => true | _ => false end.

(** Unary minus. *)
Definition neg (a : num) : num :=
  match a with
  | NaN => NaN
  | PInf => NInf
  | NInf => PInf
  | Fin q => Fin (- q)
  end.

(** [a + b] *)
Definition add (a b : num) : num :=
  match a, b with
  | NaN, _ | _, NaN => NaN
  | PInf, NInf | NInf, PInf => NaN
  | PInf, _ | _, PInf => PInf
  | NInf, _ | _, NInf => NInf
  | Fin x, Fin y => Fin (x + y)
  end.

(** [a - b] *)
Definition sub (a b : num) : num := add a (neg b).

(** An infinity of the given sign times [b]. *)
Definition mul_inf (positive : bool) (b : num) : num :=
  match b with
  | NaN => NaN
  | PInf => if positive then PInf else NInf
  | NInf => if positive then NInf else PInf
  | Fin y =>
      if Qeq_bool y 0 then NaN
      else if Bool.eqb positive (Qltb 0 y) then PInf else NInf
  end.

(** [a * b] *)
Definition mul (a b : num) : num :=
  match a, b with
  | NaN, _ | _, NaN => NaN
  | PInf, _ => mul_inf true b
  | NInf, _ => mul_inf false b
  | _, PInf => mul_inf true a
  | _, NInf => mul_inf false a
  | Fin x, Fin y => Fin (x * y)
  end.

(** [a / b].  The only zero is +0: a finite non-zero dividend over zero gives
    the infinity of the dividend's sign, and 0/0 is NaN. *)
Definition div (a b : num) : num :=
  match a, b with
  | NaN, _ | _, NaN => NaN
  | Fin x, Fin y =>
      if Qeq_bool y 0 then
        if Qeq_bool x 0 then NaN else if Qltb 0 x then PInf else NInf
      else Fin (x / y)
  | Fin _, _ => Fin 0
  | _, PInf | _, NInf => NaN
  | PInf, Fin y => if Qltb y 0 then NInf else PInf
  | NInf, Fin y => if Qltb y 0 then PInf else NInf
  end.

(** [a < b]; false as soon as one side is NaN. *)
Definition ltb (a b : num) : bool :=
  match a, b with
  | NaN, _ | _, NaN => false
  | _, NInf => false
  | NInf, _ => true
  | PInf, _ => false
  | Fin _, PInf => true
  | Fin x, Fin y => Qltb x y
  end.

(** [a <= b]; false as soon as one side is NaN. *)
Definition leb (a b : num) : bool :=
  match a, b with
  | NaN, _ | _, NaN => false
  | NInf, _ => true
  | _, PInf => true
  | _, NInf => false
  | PInf, _ => false
  | Fin x, Fin y => Qle_bool x y
  end.

Definition gtb (a b : num) : bool := ltb b a.
Definition geb (a b : num) : bool := leb b a.

(** [a === b] on numbers. *)
Definition eqb (a b : num) : bool :=
  match a, b with
  | PInf, PInf | NInf, NInf => true
  | Fin x, Fin y => Qeq_bool x y
  | _, _ => false
  end.

(** Truthiness of a number: every number but 0 and NaN. *)
Definition truthy (a : num) : bool :=
  match a with
  | NaN => false
  | Fin q => negb (Qeq_bool q 0)
  | _ => true
  end.

(** [a || 0] on a number. *)
Definition or0 (a : num) : num := if truthy a then a else zero.

(** [Math.abs] *)
Definition abs (a : num) : num :=
  match a with
  | NaN => NaN
  | PInf | NInf => PInf
  | Fin q => Fin (Qabs q)
  end.

(** [Math.floor] *)
Definition floor (a : num) : num :=
  match a with
  | Fin q => ofZ (Qfloor q)
  | _ => a
  end.

(** [Math.ceil] *)
Definition ceil (a : num) : num :=
  match a with
  | Fin q => ofZ (Qceiling q)
  | _ => a
  end.

(** [Math.round]: the nearest integer, a tie going up. *)
Definition round (a : num) : num :=
  match a with
  | Fin q => ofZ (Qfloor (q + (1 # 2)))
  | _ => a
  end.

(** [Math.max(a, b)] *)
Definition max (a b : num) : num :=
  if isNaN a || isNaN b then NaN else if ltb a b then b else a.

(** [Math.min(a, b)] *)
Definition min (a b : num) : num :=
  if isNaN a || isNaN b then NaN else if ltb b a then b else a.

(** Two numbers denote the same value (NaN being one value). *)
Definition same (a b : num) : Prop :=
  match a, b with
  | NaN, NaN | PInf, PInf | NInf, NInf => True
  | Fin x, Fin y => x == y
  | _, _ => False
  end.

Definition le (a b : num) : Prop := leb a b = true.
Definition lt (a b : num) : Prop := ltb a b = true.

End Num.

Import Num.

Declare Scope num_scope.
Delimit Scope num_scope with num.
Bind Scope num_scope with num.
Infix "+" := add : num_scope.
Infix "-" := sub : num_scope.
Infix "*" := mul : num_scope.
Infix "/" := div : num_scope.
Infix "<=" := le : num_scope.
Infix "<" := lt : num_scope.
Infix "==" := same (at level 70, no associativity) : num_scope.

Arguments add : simpl never.
Arguments sub : simpl never.
Arguments mul : simpl never.
Arguments div : simpl never.
Arguments floor : simpl never.
Arguments ceil : simpl never.
Arguments round : simpl never.
Arguments abs : simpl never.
Arguments max : simpl never.
Arguments min : simpl never.
Arguments ltb : simpl never.
Arguments leb : simpl never.
Arguments or0 : simpl never.

(* ================================================================== *)
(** * Dates and timestamp strings *)
(* ================================================================== *)

Open Scope Z_scope.

(** A [Date] object is its time value: a whole number of milliseconds since
    the epoch, or NaN (an invalid date). *)
Inductive Date : Type :=
| InvalidDate
| DateAt (ms : Z).

(** [d.getTime()], also the number a date is compared as. *)
Definition getTime (d : Date) : num :=
  match d with
  | InvalidDate => NaN
  | DateAt t => ofZ t
  end.

(** Truncation toward zero of a rational. *)
Definition Qtruncate (q : Q) : Z := Z.quot (Qnum q) (Z.pos (Qden q)).

(** [new Date(value)] for a number: the time value is clipped (TimeClip). *)
Definition Date_ofNumber (value : num) : Date :=
  match value with
  | Fin q =>
      if Qle_bool (Qabs q) (inject_Z 8640000000000000)
      then DateAt (Qtruncate q) else InvalidDate
  | _ => InvalidDate
  end.

(** The two services of the host the engine calls and that ECMAScript leaves
    (partly) to the implementation: [Date.parse], behind [new Date(string)],
    and [String.prototype.localeCompare]. *)
Class Host : Type := {
  Date_parse : string -> Date;
  localeCompare : string -> string -> comparison
}.

(** [new Date(string)] *)
Definition Date_ofString `{Host} (s : string) : Date := Date_parse s.

(** ** The proleptic Gregorian calendar *)

(** Year, month and day of the day numbered [z] from 1970-01-01. *)
Definition civil_from_days (z : Z) : Z * Z * Z :=
  let z := z + 719468 in
  let era := z / 146097 in
  let doe := z - era * 146097 in
  let yoe := (doe - doe / 1460 + doe / 36524 - doe / 146096) / 365 in
  let doy := doe - (365 * yoe + yoe / 4 - yoe / 100) in
  let mp := (5 * doy + 2) / 153 in
  let d := doy - (153 * mp + 2) / 5 + 1 in
  let m := if mp <? 10 then mp + 3 else mp - 9 in
  let y := yoe + era * 400 in
  ((if m <=? 2 then y + 1 else y), m, d).

(** Number of the day [y]-[m]-[d], counted from 1970-01-01. *)
Definition days_from_civil (y m d : Z) : Z :=
  let y := if m <=? 2 then y - 1 else y in
  let era := y / 400 in
  let yoe := y - era * 400 in
  let doy := (153 * (if 2 <? m then m - 3 else m + 9) + 2) / 5 + d - 1 in
  let doe := yoe * 365 + yoe / 4 - yoe / 100 + doy in
  era * 146097 + doe - 719468.

(** The character of a decimal digit. *)
Definition digit (d : Z) : ascii := ascii_of_N (48 + Z.to_N d).

(** The last [width] decimal digits of [n], most significant first, put in
    front of [acc]. *)
Fixpoint digits (width : nat) (n : Z) (acc : string) : string :=
  match width with
  | O => acc
  | S w => digits w (n / 10) (String (digit (n mod 10)) acc)
  end.

(** [d.toISOString()] of a valid date: [YYYY-MM-DDTHH:mm:ss.sssZ], the year
    written with a sign and six digits outside 0..9999. *)
Definition toISOString (t : Z) : string :=
  let day := t / 86400000 in
  let ms := t mod 86400000 in
  let '(y, m, d) := civil_from_days day in
  let sign := if y <? 0 then "-"%string else "+"%string in
  let year :=
    if (0 <=? y) && (y <=? 9999) then digits 4 y ""
    else (sign ++ digits 6 (Z.abs y) "")%string in
  (year ++ "-" ++ digits 2 m "" ++ "-" ++ digits 2 d "" ++ "T"
   ++ digits 2 (ms / 3600000) "" ++ ":" ++ digits 2 (ms / 60000 mod 60) ""
   ++ ":" ++ digits 2 (ms / 1000 mod 60) "" ++ "."
   ++ digits 3 (ms mod 1000) "" ++ "Z")%string.

(** ** A reference host *)

(** Reads [count] decimal digits off the front of [s]. *)
Fixpoint read_digits (count : nat) (acc : Z) (s : string) : option (Z * string) :=
  match count with
  | O => Some (acc, s)
  | S c =>
      match s with
      | String a rest =>
          let code := Z.of_N (N_of_ascii a) in
          if (48 <=? code) && (code <=? 57)
          then read_digits c (acc * 10 + (code - 48)) rest
          else None
      | EmptyString => None
      end
  end.

(** Drops the character [c] off the front of [s]. *)
Definition read_char (c : ascii) (s : string) : option string :=
  match s with
  | String a rest => if Ascii.eqb a c then Some rest else None
  | EmptyString => None
  end.

Definition days_in_month (y m : Z) : Z :=
  days_from_civil (if m =? 12 then y + 1 else y) (if m =? 12 then 1 else m + 1) 1
  - days_from_civil y m 1.

Definition bind {A B : Type} (o : option A) (f : A -> option B) : option B :=
  match o with
  | Some a => f a
  | None => None
  end.

Notation "' p <- o ;; k" := (bind o (fun p => k))
  (at level 61, p pattern, o at next level, right associativity).

(** The fractional part of a time of day: nothing, or a dot and three
    digits. *)
Definition read_millis (s : string) : option (Z * string) :=
  match read_char "." s with
  | Some rest => read_digits 3 0 rest
  | None => Some (0, s)
  end.

(** The UTC forms of the ECMAScript date-time string format,
    [YYYY-MM-DD] and [YYYY-MM-DDTHH:mm:ss(.sss)Z]; any other string is an
    invalid date. *)
Definition iso_parse (s : string) : option Z :=
  ' (y, s) <- read_digits 4 0 s ;;
  ' s <- read_char "-" s ;;
  ' (m, s) <- read_digits 2 0 s ;;
  ' s <- read_char "-" s ;;
  ' (d, s) <- read_digits 2 0 s ;;
  if (1 <=? m) && (m <=? 12) && (1 <=? d) && (d <=? days_in_month y m) then
    let day := days_from_civil y m d in
    match s with
    | EmptyString => Some (day * 86400000)
    | _ =>
        ' s <- read_char "T" s ;;
        ' (hh, s) <- read_digits 2 0 s ;;
        ' s <- read_char ":" s ;;
        ' (mi, s) <- read_digits 2 0 s ;;
        ' s <- read_char ":" s ;;
        ' (ss, s) <- read_digits 2 0 s ;;
        ' (ms, s) <- read_millis s ;;
        ' s <- read_char "Z" s ;;
        match s with
        | EmptyString =>
            if (hh <=? 23) && (mi <=? 59) && (ss <=? 59)
            then Some (day * 86400000 + hh * 3600000 + mi * 60000 + ss * 1000 + ms)
            else None
        | _ => None
        end
    end
  else None.

(** A host that parses exactly the strings of [iso_parse] and compares
    strings by code unit. *)
Definition reference_host : Host := {|
  Date_parse := fun s =>
    match iso_parse s with
    | Some t => DateAt t
    | None => InvalidDate
    end;
  localeCompare := String.compare
|}.

(* ================================================================== *)
(** * Data model *)
(* ================================================================== *)

(** A cell of an event tuple as JSON delivers it. *)
Inductive jsval : Type :=
| JNull
| JNum (q : Q)
| JStr (s : string).

(** [StakerEvent]: the tuple
    [[signature, timestamp, slot, type_id, address, d_stake, d_pending,
      d_withdrawn, d_compounded, fee_payer, reward_sol, ...rest]],
    kept as the array it is, since the engine tests its length.  The cells
    are read at the types [StakerEvent] declares for them. *)
Definition StakerEvent : Type := list jsval.

(** [event[i] || 0] for a cell declared [number]; a missing cell is
    [undefined], and [undefined] and [null] are falsy. *)
Definition num_cell_or0 (event : StakerEvent) (i : nat) : num :=
  match nth_error event i with
  | Some (JNum q) => or0 (Fin q)
  | _ => zero
  end.

(** [event[i]] for a cell declared [string]. *)
Definition str_cell (event : StakerEvent) (i : nat) : string :=
  match nth_error event i with
  | Some (JStr s) => s
  | _ => EmptyString
  end.

(** [op_type === k] *)
Definition is_type (op_type : option jsval) (k : Z) : bool :=
  match op_type with
  | Some (JNum q) => Qeq_bool q (inject_Z k)
  | _ => false
  end.

Record TimelinePoint : Type := {
  date : string;
  staked : num;
  unstaked : num;
  locked : num;
  realized_rewards : num
}.

Record VestingSchedule : Type := {
  startTime : Date;
  lockedTuna : num;
  cliffHours : num;
  unlockPeriodHours : num;
  unlockRateTuna : num
}.

Record Operation : Type := {
  op_date : string;
  op_type : string;
  op_type_label : string;
  op_amount : num;
  op_signature : string;
  op_solscan_url : string
}.

Record WalletSummary : Type := {
  total_operations : num;
  current_staked : num;
  current_unstaked : num;
  current_locked : num;
  summary_realized_rewards : num;
  first_stake_date : string;
  last_activity_date : string;
  days_active : num
}.

(** [EVENT_TYPES]: ordinal, type name, display label. *)
Definition EVENT_TYPES : list (Z * (string * string)) :=
  [ (0, ("initialize", "Initialize Position"));
    (1, ("stake", "Stake"));
    (2, ("unstake", "Unstake"));
    (3, ("withdraw", "Withdraw"));
    (4, ("compound", "Compound"));
    (5, ("claim", "Claim Rewards"));
    (6, ("set_vesting", "Set Vesting Strategy")) ]%string.

(** [EVENT_TYPES[op_type] || ['unknown', 'Unknown']] *)
Definition event_type (op_type : option jsval) : string * string :=
  match find (fun entry => is_type op_type (fst entry)) EVENT_TYPES with
  | Some entry => snd entry
  | None => ("unknown", "Unknown")%string
  end.

(* ================================================================== *)
(** * The vesting model *)
(* ================================================================== *)

(** Remaining locked amount of a vesting schedule at a given time. *)
Definition calculateLockedAmount (schedule : VestingSchedule) (currentTime : Date) : num :=
  let elapsedMs := (getTime currentTime - getTime (startTime schedule))%num in
  let elapsedHours := (elapsedMs / ofZ (1000 * 60 * 60))%num in
  if ltb elapsedHours (cliffHours schedule) then lockedTuna schedule
  else
    let hoursSinceCliff := (elapsedHours - cliffHours schedule)%num in
    let unlockPeriods := floor (hoursSinceCliff / unlockPeriodHours schedule) in
    let totalUnlocked := (unlockPeriods * unlockRateTuna schedule)%num in
    max zero (lockedTuna schedule - totalUnlocked).

(** The loop [for (const schedule of vestingSchedules) total +=
    calculateLockedAmount(schedule, time)], from 0. *)
Definition sumLocked (vestingSchedules : list VestingSchedule) (time : Date) : num :=
  fold_left (fun total schedule => (total + calculateLockedAmount schedule time)%num)
            vestingSchedules zero.

(** [Math.round(x * 1000000) / 1000000] *)
Definition round6 (x : num) : num := (round (x * ofZ 1000000) / ofZ 1000000)%num.

(* ================================================================== *)
(** * The balance accumulator *)
(* ================================================================== *)

(** [Array.prototype.findIndex], [None] standing for -1. *)
Fixpoint findIndex {A : Type} (f : A -> bool) (l : list A) : option nat :=
  match l with
  | [] => None
  | x :: rest =>
      if f x then Some O
      else match findIndex f rest with
           | Some i => Some (S i)
           | None => None
           end
  end.

(** [l[i] = x] for an index inside the array. *)
Fixpoint assign {A : Type} (i : nat) (x : A) (l : list A) : list A :=
  match l, i with
  | [], _ => []
  | _ :: rest, O => x :: rest
  | y :: rest, S j => y :: assign j x rest
  end.

(** The set_vesting branch on the schedule array: add a schedule, or update
    the one with the same locked amount. *)
Definition setVesting (startTime : Date) (amount cliffHours unlockPeriodHours unlockRateTuna : num)
    (vestingSchedules : list VestingSchedule) : list VestingSchedule :=
  if gtb amount zero && gtb unlockPeriodHours zero && gtb unlockRateTuna zero then
    let newSchedule := {|
      startTime := startTime;
      lockedTuna := amount;
      cliffHours := cliffHours;
      unlockPeriodHours := unlockPeriodHours;
      unlockRateTuna := unlockRateTuna
    |} in
    match findIndex (fun s => eqb (lockedTuna s) amount) vestingSchedules with
    | Some existingIndex => assign existingIndex newSchedule vestingSchedules
    | None => vestingSchedules ++ [newSchedule]
    end
  else vestingSchedules.

(** The variables of [buildBalanceTimeline] that live across the iterations
    of its loop: the running totals [staked], [unstaked] and
    [realized_rewards], and the three arrays. *)
Record Replay : Type := {
  staked_total : num;
  unstaked_total : num;
  rewards_total : num;
  vestingSchedules : list VestingSchedule;
  timeline : list TimelinePoint;
  operations : list Operation
}.

Definition Replay_start : Replay := {|
  staked_total := zero;
  unstaked_total := zero;
  rewards_total := zero;
  vestingSchedules := [];
  timeline := [];
  operations := []
|}.

Section Engine.

Context `{host : Host}.

(** One iteration of the loop of [buildBalanceTimeline]. *)
Definition replayEvent (st : Replay) (event : StakerEvent) : Replay :=
  if (List.length event <? 11)%nat then st
  else
    let signature := str_cell event 0 in
    let timestamp := str_cell event 1 in
    let op_type := nth_error event 3 in
    let d_stake := num_cell_or0 event 5 in
    let d_pending := num_cell_or0 event 6 in
    let reward_sol := num_cell_or0 event 10 in
    let '(type_id, type_label) := event_type op_type in
    let staked := staked_total st in
    let unstaked := unstaked_total st in
    let realized_rewards := rewards_total st in
    let schedules := vestingSchedules st in
    let '(amount, staked, unstaked, realized_rewards, schedules) :=
      if is_type op_type 0 then
        (abs d_stake, staked + d_stake, unstaked + d_pending, realized_rewards, schedules)%num
      else if is_type op_type 1 then
        (abs d_stake, staked + d_stake, unstaked + d_pending, realized_rewards, schedules)%num
      else if is_type op_type 2 then
        (abs d_stake, staked + d_stake, unstaked + d_pending, realized_rewards, schedules)%num
      else if is_type op_type 3 then
        (abs d_pending, staked + d_stake, unstaked + d_pending, realized_rewards, schedules)%num
      else if is_type op_type 4 then
        (reward_sol, staked + d_stake, unstaked + d_pending,
         realized_rewards + reward_sol, schedules)%num
      else if is_type op_type 5 then
        (reward_sol, staked + d_stake, unstaked + d_pending,
         realized_rewards + reward_sol, schedules)%num
      else if is_type op_type 6 then
        let amount := abs d_stake in
        let cliffHours := num_cell_or0 event 12 in
        let unlockPeriodHours := num_cell_or0 event 13 in
        let unlockRateTuna := num_cell_or0 event 14 in
        (amount, staked, unstaked, realized_rewards,
         setVesting (Date_ofString timestamp) amount cliffHours unlockPeriodHours
                    unlockRateTuna schedules)
      else
        (zero, staked + d_stake, unstaked + d_pending, realized_rewards, schedules)%num in
    let eventTime := Date_ofString timestamp in
    let rawLocked := sumLocked schedules eventTime in
    let locked := min rawLocked staked in
    {| staked_total := staked;
       unstaked_total := unstaked;
       rewards_total := realized_rewards;
       vestingSchedules := schedules;
       timeline := timeline st ++ [ {|
         date := timestamp;
         staked := round6 staked;
         unstaked := round6 unstaked;
         locked := round6 locked;
         realized_rewards := round6 realized_rewards |} ];
       operations := operations st ++ [ {|
         op_date := timestamp;
         op_type := type_id;
         op_type_label := type_label;
         op_amount := round6 amount;
         op_signature := signature;
         op_solscan_url := ("https://solscan.io/tx/" ++ signature)%string |} ] |}.

(** The state of the loop after the given events. *)
Definition replay (events : list StakerEvent) : Replay :=
  fold_left replayEvent events Replay_start.

(** Build timeline from wallet events: [[timeline, operations,
    vestingSchedules]]. *)
Definition buildBalanceTimeline (events : list StakerEvent)
  : list TimelinePoint * list Operation * list VestingSchedule :=
  let st := replay events in
  (timeline st, operations st, vestingSchedules st).

(* ------------------------------------------------------------------ *)
(** ** The timeline extender *)

(** Number of iterations of [for (let i = 0; i <= totalPeriods; i++)]; with
    [totalPeriods] +Infinity the loop has no last iteration ([None]). *)
Definition iterations (totalPeriods : num) : option nat :=
  match totalPeriods with
  | Fin q => Some (if Qltb q 0 then O else S (Z.to_nat (Qfloor q)))
  | PInf => None
  | _ => Some O
  end.

(** The unlock time of iteration [i]. *)
Definition unlockTimeAt (startMs cliffMs periodMs : num) (i : nat) : Date :=
  match i with
  | O => Date_ofNumber (startMs + cliffMs)
  | _ => Date_ofNumber (startMs + cliffMs + ofZ (Z.of_nat i) * periodMs)
  end.

(** The unlock times one schedule contributes: the cliff end and every period
    boundary that is not after the cache end.  Only a valid date passes
    [unlockTime <= cacheEndTime], so the array is one of time values. *)
Definition unlockTimesOf (schedule : VestingSchedule) (cacheEndTime : Date) : option (list Z) :=
  let startMs := getTime (startTime schedule) in
  let cliffMs := (cliffHours schedule * ofZ 60 * ofZ 60 * ofZ 1000)%num in
  let periodMs := (unlockPeriodHours schedule * ofZ 60 * ofZ 60 * ofZ 1000)%num in
  let totalPeriods := ceil (lockedTuna schedule / unlockRateTuna schedule) in
  ' count <- iterations totalPeriods ;;
  Some (flat_map (fun i =>
          let unlockTime := unlockTimeAt startMs cliffMs periodMs i in
          if leb (getTime unlockTime) (getTime cacheEndTime) then
            match unlockTime with
            | DateAt t => [t]
            | InvalidDate => []
            end
          else [])
        (seq 0 count)).

(** Collect all unlock times from all vesting schedules. *)
Fixpoint collectUnlockTimes (vestingSchedules : list VestingSchedule) (cacheEndTime : Date)
  : option (list Z) :=
  match vestingSchedules with
  | [] => Some []
  | schedule :: rest =>
      ' times <- unlockTimesOf schedule cacheEndTime ;;
      ' more <- collectUnlockTimes rest cacheEndTime ;;
      Some (times ++ more)
  end.

(** The search for the previous point: from [timeline[0]], every point of the
    timeline that is not after the unlock date and is later than the
    candidate replaces the candidate. *)
Definition previousPoint (first : TimelinePoint) (timeline : list TimelinePoint)
    (unlockDateStr : string) : TimelinePoint :=
  fold_left (fun prevPoint point =>
               if (date point <=? unlockDateStr)%string && (date prevPoint <? date point)%string
               then point else prevPoint)
            timeline first.

(** One iteration of the loop over the unlock times ([timeline] is not empty
    there). *)
Definition insertUnlockPoint (existingDates : list string)
    (vestingSchedules : list VestingSchedule)
    (timeline : list TimelinePoint) (unlockTime : Z) : list TimelinePoint :=
  let unlockDateStr := toISOString unlockTime in
  if existsb (String.eqb unlockDateStr) existingDates then timeline
  else
    match timeline with
    | [] => timeline
    | first :: _ =>
        let prevPoint := previousPoint first timeline unlockDateStr in
        let lockedAtUnlock := sumLocked vestingSchedules (DateAt unlockTime) in
        let cappedLocked := min lockedAtUnlock (staked prevPoint) in
        timeline ++ [ {|
          date := unlockDateStr;
          staked := staked prevPoint;
          unstaked := unstaked prevPoint;
          locked := round6 cappedLocked;
          realized_rewards := realized_rewards prevPoint |} ]
    end.

(** Add unlock points that do not coincide with existing events. *)
Definition insertUnlockPoints (vestingSchedules : list VestingSchedule)
    (timeline : list TimelinePoint) (unlockTimes : list Z) : list TimelinePoint :=
  let existingDates := map date timeline in
  fold_left (insertUnlockPoint existingDates vestingSchedules) unlockTimes timeline.

(** [timeline.reduce((latest, p) => p.date > latest.date ? p : latest)] *)
Definition latestPoint (first : TimelinePoint) (rest : list TimelinePoint) : TimelinePoint :=
  fold_left (fun latest p => if (date latest <? date p)%string then p else latest) rest first.

(** Add the final point at the cache end. *)
Definition addFinalPoint (vestingSchedules : list VestingSchedule)
    (cacheEndTimestamp : string) (timeline : list TimelinePoint) : list TimelinePoint :=
  match timeline with
  | [] => timeline
  | first :: rest =>
      let lastPoint := latestPoint first rest in
      if (date lastPoint <? cacheEndTimestamp)%string then
        let lockedAtEnd := sumLocked vestingSchedules (Date_ofString cacheEndTimestamp) in
        let lockedAtEnd := min lockedAtEnd (staked lastPoint) in
        timeline ++ [ {|
          date := cacheEndTimestamp;
          staked := staked lastPoint;
          unstaked := unstaked lastPoint;
          locked := round6 lockedAtEnd;
          realized_rewards := realized_rewards lastPoint |} ]
      else timeline
  end.

(** [timeline.sort((a, b) => a.date.localeCompare(b.date))]: the sort is
    stable. *)
Fixpoint insertSorted (p : TimelinePoint) (sorted : list TimelinePoint) : list TimelinePoint :=
  match sorted with
  | [] => [p]
  | q :: rest =>
      match localeCompare (date p) (date q) with
      | Gt => q :: insertSorted p rest
      | _ => p :: sorted
      end
  end.

Definition sortTimeline (timeline : list TimelinePoint) : list TimelinePoint :=
  fold_right insertSorted [] timeline.

(** The branch for a wallet without vesting schedule: extend to the cache
    end. *)
Definition extendToCacheEnd (cacheEndDate : string) (timeline : list TimelinePoint)
  : list TimelinePoint :=
  match timeline with
  | [] => timeline
  | first :: _ =>
      let lastPoint := last timeline first in
      let lastTimelineDate := date lastPoint in
      let cacheEndTimestamp := (cacheEndDate ++ "T23:59:59Z")%string in
      if (lastTimelineDate <? cacheEndTimestamp)%string then
        timeline ++ [ {|
          date := cacheEndTimestamp;
          staked := staked lastPoint;
          unstaked := unstaked lastPoint;
          locked := locked lastPoint;
          realized_rewards := realized_rewards lastPoint |} ]
      else timeline
  end.

(** Truthiness of [meta.end]. *)
Definition truthy_string (s : option string) : option string :=
  match s with
  | Some EmptyString => None
  | _ => s
  end.

(** Insert vesting unlock events and extend to cache end date: the two
    branches of [parseWalletTimeline] on a timeline that is not empty.
    [None]: the enumeration of the unlock times does not end. *)
Definition extendTimeline (cacheEndDate : option string)
    (vestingSchedules : list VestingSchedule) (timeline : list TimelinePoint)
  : option (list TimelinePoint) :=
  match truthy_string cacheEndDate, vestingSchedules with
  | Some cacheEndDate, _ :: _ =>
      let cacheEndTimestamp := (cacheEndDate ++ "T23:59:59Z")%string in
      let cacheEndTime := Date_ofString cacheEndTimestamp in
      ' unlockTimes <- collectUnlockTimes vestingSchedules cacheEndTime ;;
      let timeline := insertUnlockPoints vestingSchedules timeline unlockTimes in
      let timeline := addFinalPoint vestingSchedules cacheEndTimestamp timeline in
      Some (sortTimeline timeline)
  | Some cacheEndDate, [] => Some (extendToCacheEnd cacheEndDate timeline)
  | None, _ => Some timeline
  end.

(* ------------------------------------------------------------------ *)
(** ** The lookup *)

Record AddressData : Type := {
  first_event : option num;
  last_event : option num;
  current : option (list num)
}.

Record CacheMeta : Type := {
  meta_start : option string;
  meta_end : option string
}.

(** [StakerCache]; a key the JSON document lacks is [None]. *)
Record StakerCache : Type := {
  addresses : option (list (string * AddressData));
  events : option (list StakerEvent);
  meta : option CacheMeta
}.

Inductive LookupError : Type :=
| WalletNotInCache (total_wallets : nat)
| NoEventData
| NoEventsForWallet
| TimelineNotBuilt.

Inductive WalletTimelineData : Type :=
| NotFound (wallet : string) (error : LookupError)
| Found (wallet : string) (date_range : string * string)
        (timeline : list TimelinePoint) (operations : list Operation)
        (summary : WalletSummary).

(** [addresses[walletAddress]] on the own keys of the object. *)
Fixpoint lookup (walletAddress : string) (addresses : list (string * AddressData))
  : option AddressData :=
  match addresses with
  | [] => None
  | (key, data) :: rest =>
      if String.eqb key walletAddress then Some data else lookup walletAddress rest
  end.

(** [e.length > 4 && e[4] === walletAddress] *)
Definition isWalletEvent (walletAddress : string) (e : StakerEvent) : bool :=
  (4 <? List.length e)%nat &&
  match nth_error e 4 with
  | Some (JStr address) => String.eqb address walletAddress
  | _ => false
  end.

(** The day count of the summary.  Neither [new Date(string)] nor [getTime]
    throws, so the assignment inside the [try] always replaces the default
    (the timeline length) and the [catch] never runs. *)
Definition daysActive (firstDate lastActivityDate : string) : num :=
  let firstDt := Date_ofString firstDate in
  let lastActivityDt := Date_ofString lastActivityDate in
  (floor ((getTime lastActivityDt - getTime firstDt) / ofZ (1000 * 60 * 60 * 24)) + ofZ 1)%num.

(** Calculate summary. *)
Definition summarize (addrData : AddressData) (first : TimelinePoint)
    (timeline : list TimelinePoint) (operations : list Operation) : WalletSummary :=
  let firstPoint := hd first timeline in
  let lastPoint := last timeline first in
  let firstDate := date firstPoint in
  let lastActivityDate :=
    match rev operations with
    | lastOperation :: _ => op_date lastOperation
    | [] => firstDate
    end in
  let current :=
    match current addrData with
    | Some c => c
    | None => [zero; zero; zero; zero; zero]
    end in
  let currentStaked :=
    match nth_error current 0 with Some x => x | None => staked lastPoint end in
  let currentUnstaked :=
    match nth_error current 1 with Some x => x | None => unstaked lastPoint end in
  let currentLocked := locked lastPoint in
  {| total_operations := ofZ (Z.of_nat (List.length operations));
     current_staked := round6 currentStaked;
     current_unstaked := round6 currentUnstaked;
     current_locked := round6 currentLocked;
     summary_realized_rewards := realized_rewards lastPoint;
     first_stake_date := firstDate;
     last_activity_date := lastActivityDate;
     days_active := daysActive firstDate lastActivityDate |}.

(** Parse wallet timeline from staker cache.  [None]: the call does not
    return (see [extendTimeline]). *)
Definition parseWalletTimeline (walletAddress : string) (cache : StakerCache)
  : option WalletTimelineData :=
  let addresses := match addresses cache with Some a => a | None => [] end in
  let events := match events cache with Some e => e | None => [] end in
  let cacheEndDate := match meta cache with Some m => meta_end m | None => None end in
  match lookup walletAddress addresses with
  | None =>
      Some (NotFound walletAddress (WalletNotInCache (List.length addresses)))
  | Some addrData =>
      match first_event addrData, last_event addrData with
      | Some _, Some _ =>
          let walletEvents := filter (isWalletEvent walletAddress) events in
          match walletEvents with
          | [] => Some (NotFound walletAddress NoEventsForWallet)
          | _ :: _ =>
              let '(timeline, operations, vestingSchedules) :=
                buildBalanceTimeline walletEvents in
              match timeline with
              | [] => Some (NotFound walletAddress TimelineNotBuilt)
              | first :: _ =>
                  ' timeline <- extendTimeline cacheEndDate vestingSchedules timeline ;;
                  let summary := summarize addrData first timeline operations in
                  let firstDate := date (hd first timeline) in
                  let lastDate := date (last timeline first) in
                  Some (Found walletAddress (firstDate, lastDate) timeline operations summary)
              end
          end
      | _, _ => Some (NotFound walletAddress NoEventData)
      end
  end.

End Engine.

(* ================================================================== *)
(** * The chart of the timeline (components/Staking/WalletTimelineChart) *)
(* ================================================================== *)

(** [address.slice(-endChars)] for a whole number [endChars >= 0]: the last
    [endChars] characters, and the whole string when [endChars] is 0, since
    [-0] is the index 0. *)
Definition sliceFromEnd (endChars : nat) (address : string) : string :=
  match endChars with
  | O => address
  | _ => substring (String.length address - endChars) endChars address
  end.

(** Helper function to truncate wallet address for display; the two counts
    are whole numbers (the chart calls it with the defaults, 5 and 5). *)
Definition truncateAddress (address : string) (startChars endChars : nat) : string :=
  if String.eqb address "" || (String.length address <=? startChars + endChars)%nat
  then address
  else (substring 0 startChars address ++ "..." ++ sliceFromEnd endChars address)%string.

(** The arrays [opsByType] keeps for one operation type. *)
Record OperationGroup : Type := {
  dates : list string;
  amounts : list num;
  signatures : list string;
  y_positions : list num
}.

(** [typeOffsets]: vertical offset multipliers per operation type. *)
Definition typeOffsets : list (string * num) :=
  [ ("initialize", Fin 1);
    ("stake", Fin (980 # 1000));
    ("unstake", Fin (1020 # 1000));
    ("withdraw", Fin (965 # 1000));
    ("compound", Fin (1010 # 1000));
    ("claim", Fin (1015 # 1000));
    ("set_vesting", Fin (950 # 1000)) ]%string.

(** [table[key]] on the own keys of an object, in the order of their
    insertion. *)
Fixpoint property {A : Type} (key : string) (table : list (string * A)) : option A :=
  match table with
  | [] => None
  | (k, v) :: rest => if String.eqb k key then Some v else property key rest
  end.

(** [typeOffsets[op.type] || 1.0] *)
Definition typeOffset (type : string) : num :=
  match property type typeOffsets with
  | Some offset => if truthy offset then offset else Fin 1
  | None => Fin 1
  end.

(** [timeline[idx]?.staked || 0] *)
Definition baseY (timeline : list TimelinePoint) (idx : nat) : num :=
  match nth_error timeline idx with
  | Some point => or0 (staked point)
  | None => zero
  end.

(** The four pushes of the body of [operations.forEach] on the group of the
    operation. *)
Definition pushMarker (op : Operation) (y : num) (group : OperationGroup) : OperationGroup := {|
  dates := dates group ++ [op_date op];
  amounts := amounts group ++ [op_amount op];
  signatures := signatures group ++ [op_signature op];
  y_positions := y_positions group ++ [y]
|}.

Definition emptyGroup : OperationGroup :=
  {| dates := []; amounts := []; signatures := []; y_positions := [] |}.

(** The body of [operations.forEach] on [opsByType], an object whose keys
    are kept in the order of their insertion: the group of [op.type] is
    created when the object has none, and the marker is pushed to it. *)
Fixpoint addMarker (op : Operation) (y : num) (opsByType : list (string * OperationGroup))
  : list (string * OperationGroup) :=
  match opsByType with
  | [] => [(op_type op, pushMarker op y emptyGroup)]
  | (type, group) :: rest =>
      if String.eqb type (op_type op) then (type, pushMarker op y group) :: rest
      else (type, group) :: addMarker op y rest
  end.

(** [operations.forEach((op, idx) => ...)] from the index [idx] on. *)
Fixpoint groupOperations (timeline : list TimelinePoint) (operations : list Operation)
    (idx : nat) (opsByType : list (string * OperationGroup))
  : list (string * OperationGroup) :=
  match operations with
  | [] => opsByType
  | op :: rest =>
      let y := (baseY timeline idx * typeOffset (op_type op))%num in
      groupOperations timeline rest (S idx) (addMarker op y opsByType)
  end.

Record ChartData : Type := {
  chart_dates : list string;
  chart_staked : list num;
  chart_locked : list num;
  hasVesting : bool;
  unlockedStaked : list num;
  chart_unstaked : list num;
  chart_rewards : list num;
  opsByType : list (string * OperationGroup)
}.

(** Prepare chart data; [None] is [null], returned when the lookup result
    has no timeline or no operations (it was not found). *)
Definition chartData (data : WalletTimelineData) : option ChartData :=
  match data with
  | NotFound _ _ => None
  | Found _ _ timeline operations _ =>
      Some {|
        chart_dates := map date timeline;
        chart_staked := map staked timeline;
        chart_locked := map locked timeline;
        hasVesting := existsb (fun v => gtb v zero) (map locked timeline);
        unlockedStaked := map (fun p => max zero (staked p - locked p)%num) timeline;
        chart_unstaked := map unstaked timeline;
        chart_rewards := map realized_rewards timeline;
        opsByType := groupOperations timeline operations 0 []
      |}
  end.

(** What the properties below read of a Plotly trace: its name and its two
    coordinate arrays. *)
Record Trace : Type := {
  trace_name : string;
  trace_x : list string;
  trace_y : list num
}.

(** [OPERATION_STYLES[opType].name], the name of the type itself when the
    table has no style for it. *)
Definition styleName (opType : string) : string :=
  match property opType
          [ ("initialize", "Initialize"); ("stake", "Stake"); ("unstake", "Unstake");
            ("compound", "Compound"); ("claim", "Claim Rewards");
            ("withdraw", "Withdraw"); ("set_vesting", "Set Vesting") ]%string with
  | Some name => name
  | None => opType
  end.

(** Build Plotly traces: the vesting area when the wallet has vesting, the
    two other areas, the reward line, and one marker trace per operation
    type. *)
Definition traces (chart : ChartData) : list Trace :=
  (if hasVesting chart
   then [ {| trace_name := "Staked TUNA (Vesting)";
             trace_x := chart_dates chart; trace_y := chart_locked chart |} ]
   else [])
  ++ [ {| trace_name := "Staked TUNA (Unlocked)";
          trace_x := chart_dates chart; trace_y := unlockedStaked chart |};
       {| trace_name := "Unstaked TUNA";
          trace_x := chart_dates chart; trace_y := chart_unstaked chart |};
       {| trace_name := "Realized Rewards";
          trace_x := chart_dates chart; trace_y := chart_rewards chart |} ]
  ++ map (fun entry =>
            {| trace_name := styleName (fst entry);
               trace_x := dates (snd entry);
               trace_y := y_positions (snd entry) |})
         (opsByType chart).

(** [rewardsTraceIndex] *)
Definition rewardsTraceIndex (chart : ChartData) : nat :=
  if hasVesting chart then 3%nat else 2%nat.

(** [handleLegendClick] on a click on the legend entry of the trace
    [curveNumber]: the new value of [showRewards], and the value returned to
    Plotly ([false] keeps it from toggling the trace itself). *)
Definition handleLegendClick (chart : ChartData) (curveNumber : nat) (showRewards : bool)
  : bool * bool :=
  if Nat.eqb curveNumber (rewardsTraceIndex chart) then (negb showRewards, false)
  else (showRewards, true).

(** The legend grid the chart reserves room for: the estimated number of
    columns and of rows, from the width the chart has. *)
Definition numLegendItems (chart : ChartData) : num :=
  ofZ (3 + 1 + Z.of_nat (List.length (opsByType chart))).

Definition estimatedColumns (isMobile : bool) (effectiveWidth : num) : num :=
  let avgItemWidth := if isMobile then ofZ 130 else ofZ 200 in
  let marginSubtraction :=
    if isMobile then (if ltb effectiveWidth (ofZ 420) then ofZ 0 else ofZ 50) else ofZ 80 in
  let availableWidth := (effectiveWidth - marginSubtraction)%num in
  max (ofZ 1) (floor (availableWidth / avgItemWidth)).

Definition estimatedRows (isMobile : bool) (effectiveWidth : num) (chart : ChartData) : num :=
  ceil (numLegendItems chart / estimatedColumns isMobile effectiveWidth).

(* ================================================================== *)
(** * Vocabulary of the statements *)
(* ================================================================== *)

(** The rational [Math.round(q * 1000000) / 1000000]. *)
Definition Qround6 (q : Q) : Q :=
  (inject_Z (Qfloor (q * 1000000 + (1 # 2))) / 1000000)%Q.

(** Hours elapsed from the instant [t0] to the instant [t], both in
    milliseconds. *)
Definition hoursBetween (t0 t : Z) : Q :=
  ((inject_Z t - inject_Z t0) / inject_Z (1000 * 60 * 60))%Q.

(** What [calculateLockedAmount] computes on finite numbers: the locked amount
    [L] of a schedule with cliff [c], period [p] and rate [r], [e] hours
    after its start. *)
Definition remaining (L c p r e : Q) : Q :=
  if Qltb e c then L
  else
    let x := (L - (inject_Z (Qfloor ((e - c) / p)) * r))%Q in
    if Qltb 0 x then x else 0%Q.

(** Number of complete unlock periods [e] hours after the start. *)
Definition periodsElapsed (c p e : Q) : Z := Qfloor ((e - c) / p)%Q.

(** A schedule with finite parameters, started at a valid date. *)
Definition finiteSchedule (t0 : Z) (L c p r : Q) : VestingSchedule := {|
  startTime := DateAt t0;
  lockedTuna := Fin L;
  cliffHours := Fin c;
  unlockPeriodHours := Fin p;
  unlockRateTuna := Fin r
|}.

(** The cells of an event the accumulator reads. *)
Definition timestamp (event : StakerEvent) : string := str_cell event 1.
Definition typeOf (event : StakerEvent) : option jsval := nth_error event 3.
Definition d_stake (event : StakerEvent) : num := num_cell_or0 event 5.
Definition d_pending (event : StakerEvent) : num := num_cell_or0 event 6.
Definition reward_sol (event : StakerEvent) : num := num_cell_or0 event 10.

(** The schedule a set_vesting event declares. *)
Definition declaredSchedule `{Host} (event : StakerEvent) : VestingSchedule := {|
  startTime := Date_ofString (timestamp event);
  lockedTuna := abs (d_stake event);
  cliffHours := num_cell_or0 event 12;
  unlockPeriodHours := num_cell_or0 event 13;
  unlockRateTuna := num_cell_or0 event 14
|}.

(** The point the accumulator pushes at [time] when it has reached the
    state [st]. *)
Definition pointAfter `{Host} (st : Replay) (time : string) : TimelinePoint := {|
  date := time;
  staked := round6 (staked_total st);
  unstaked := round6 (unstaked_total st);
  locked := round6 (min (sumLocked (vestingSchedules st) (Date_ofString time))
                        (staked_total st));
  realized_rewards := round6 (rewards_total st)
|}.






(** A schedule as the accumulator builds them: finite parameters, the locked
    amount, the period and the rate strictly positive. *)
Definition positiveSchedule (s : VestingSchedule) : Prop :=
  exists L c p r : Q,
    lockedTuna s = Fin L /\ cliffHours s = Fin c /\
    unlockPeriodHours s = Fin p /\ unlockRateTuna s = Fin r /\
    (0 < L)%Q /\ (0 < p)%Q /\ (0 < r)%Q.







(* ================================================================== *)
(** * Vocabulary of the calendar *)
(* ================================================================== *)

(** Lexicographic composition of two comparisons. *)
Definition lexico (c1 c2 : comparison) : comparison :=
  match c1 with
  | Eq => c2
  | _ => c1
  end.

(** Year within the 400-year era of the day numbered [doe] in the era. *)
Definition year_of_era (doe : Z) : Z :=
  (doe - doe / 1460 + doe / 36524 - doe / 146096) / 365.

(** Number in the era of the first day (1 March) of the year [yoe] of the
    era. *)
Definition year_start (yoe : Z) : Z := 365 * yoe + yoe / 4 - yoe / 100.

(** Year shift, month and day of the day numbered [doy] from 1 March. *)
Definition month_day (doy : Z) : Z * Z * Z :=
  let mp := (5 * doy + 2) / 153 in
  let d := doy - (153 * mp + 2) / 5 + 1 in
  let m := if mp <? 10 then mp + 3 else mp - 9 in
  ((if m <=? 2 then 1 else 0), m, d).

Definition date_compare (a b : Z * Z * Z) : comparison :=
  let '(y1, m1, d1) := a in
  let '(y2, m2, d2) := b in
  lexico (y1 ?= y2) (lexico (m1 ?= m2) (d1 ?= d2)).

Fixpoint all_from (count : nat) (from : Z) (test : Z -> bool) : bool :=
  match count with
  | O => true
  | S c => test from && all_from c (from + 1) test
  end.

Definition year_ends_checked (y : Z) : bool :=
  (year_of_era (year_start y) =? y) && (year_of_era (year_start (y + 1) - 1) =? y).

Definition month_day_checked (doy : Z) : bool :=
  let '(shift, m, d) := month_day doy in
  (0 <=? shift) && (shift <=? 1) && (1 <=? m) && (m <=? 12) && (1 <=? d) && (d <=? 31)
  && ((doy =? 365)
      || match date_compare (shift, m, d) (month_day (doy + 1)) with
         | Lt => true
         | _ => false
         end)
  && ((doy <? 364) || ((shift =? 1) && (m =? 2))).

(** Year of the era (from 1 January), month and day of a day of the era. *)
Definition era_day (doe : Z) : Z * Z * Z :=
  let yoe := year_of_era doe in
  let '(shift, m, d) := month_day (doe - year_start yoe) in
  (yoe + shift, m, d).

(** The time values from 0000-01-01T00:00:00.000Z to
    9999-12-31T23:59:59.999Z, whose timestamp has a year of four digits. *)
Definition fourDigitYear (t : Z) : Prop := -62167219200000 <= t < 253402300800000.

(** The date of the point [q] is the ISO timestamp of the instant [t]. *)
Definition datedAt (q : TimelinePoint) (t : Z) : Prop :=
  fourDigitYear t /\ date q = toISOString t.

(* ================================================================== *)
(** * Sample data *)
(* ================================================================== *)

(** An event of the wallet ["wallet"]; [rest] holds the cells after
    [reward_sol]: for a set_vesting event the treasury balance, the cliff
    hours, the unlock period hours and the unlock rate. *)
Definition sampleEvent (signature time : string) (type : Z)
    (d_stake d_pending reward_sol : Q) (rest : list jsval) : StakerEvent :=
  [JStr signature; JStr time; JNum 1; JNum (inject_Z type); JStr "wallet";
   JNum d_stake; JNum d_pending; JNum 0; JNum 0; JNull; JNum reward_sol] ++ rest.

Definition stake1000 : StakerEvent :=
  sampleEvent "sig1" "2025-01-01T00:00:00Z" 1 1000 0 0 [].

Definition vest250 : StakerEvent :=
  sampleEvent "sig2" "2025-01-02T00:00:00Z" 6 250 0 0 [JNum 0; JNum 24; JNum 24; JNum 100].

Definition vest400 : StakerEvent :=
  sampleEvent "sig3" "2025-01-02T12:00:00Z" 6 400 0 0 [JNum 0; JNum 0; JNum 48; JNum 50].

Definition unstake5 : StakerEvent :=
  sampleEvent "sig4" "2025-01-03T00:00:00Z" 2 (-5) 5 0 [].

Definition sampleCache (events : list StakerEvent) (cacheEnd : string) : StakerCache := {|
  addresses := Some [("wallet"%string,
                      {| first_event := Some zero; last_event := Some zero; current := None |})];
  events := Some events;
  meta := Some {| meta_start := None; meta_end := Some cacheEnd |}
|}.


(** The events the accumulator does not skip. *)
Definition replayed (events : list StakerEvent) : list StakerEvent :=
  filter (fun event => negb (List.length event <? 11)%nat) events.

(** The events come in the order of their timestamps. *)
Definition chronological (events : list StakerEvent) : Prop :=
  StronglySorted (fun a b => (timestamp a <=? timestamp b)%string = true) (replayed events).

(** [prev] is a nearest preceding point of the timeline for the date [d]:
    a point not after [d] that no point not after [d] comes after, in the
    order of the timestamp strings the engine compares. *)
Definition nearestPreceding (tl : list TimelinePoint) (d : string) (prev : TimelinePoint)
  : Prop :=
  In prev tl /\ (date prev <=? d)%string = true /\
  forall q, In q tl -> (date q <=? d)%string = true -> (date q <=? date prev)%string = true.

(** No point of the timeline is before its first point, as when the events
    of the wallet come in chronological order. *)
Definition startsWithEarliest (tl : list TimelinePoint) : bool :=
  match tl with
  | [] => true
  | first :: rest => forallb (fun q => (date first <=? date q)%string) rest
  end.




(* ================================================================== *)
(** * Vocabulary of the further properties *)
(* ================================================================== *)


(** The events whose deltas the accumulator applies: all but set_vesting. *)
Definition movesBalances (event : StakerEvent) : bool :=
  negb (is_type (typeOf event) 6).


(** No two schedules of the array have the same locked amount. *)
Definition distinctAmounts (schedules : list VestingSchedule) : Prop :=
  forall i j si sj,
    nth_error schedules i = Some si -> nth_error schedules j = Some sj ->
    eqb (lockedTuna si) (lockedTuna sj) = true -> i = j.

(** What the sort of the timeline needs of the comparison of the host: of
    two strings one at least is not after the other, and "not after" is
    transitive. *)
Definition orderedCompare (compare : string -> string -> comparison) : Prop :=
  (forall a b, compare a b = Gt -> compare b a <> Gt) /\
  (forall a b c, compare a b <> Gt -> compare b c <> Gt -> compare a c <> Gt).

(** The point [a] is not after the point [b] for the host. *)
Definition notAfter `{Host} (a b : TimelinePoint) : Prop :=
  localeCompare (date a) (date b) <> Gt.

(** The entry of the wallet in the cache, the events of the cache that are
    events of the wallet, and the end date of the cache, as
    [parseWalletTimeline] reads them. *)
Definition entryOf (walletAddress : string) (cache : StakerCache) : option AddressData :=
  lookup walletAddress (match addresses cache with Some a => a | None => [] end).

Definition walletEventsOf (walletAddress : string) (cache : StakerCache) : list StakerEvent :=
  filter (isWalletEvent walletAddress) (match events cache with Some e => e | None => [] end).

Definition cacheEndOf (cache : StakerCache) : option string :=
  match meta cache with Some m => meta_end m | None => None end.

(** The entry of the wallet has its two event indices. *)
Definition indexed (addrData : AddressData) : Prop :=
  first_event addrData <> None /\ last_event addrData <> None.

(** A point whose locked value is what the cap leaves of a locked sum of
    0: [min(0, staked)]. *)
Definition nothingLocked (p : TimelinePoint) : Prop :=
  (locked p == min zero (staked p))%num.

(** The operations with their indices, counted from [from]. *)
Definition indexedFrom (from : nat) (operations : list Operation) : list (nat * Operation) :=
  combine (seq from (List.length operations)) operations.

(** The markers of the operations of the type [type] among the indexed
    operations [entries], in their order: date, amount, signature, and the
    staked value the timeline has at the index of the operation, times the
    offset of the type. *)
Definition markersOf (type : string) (timeline : list TimelinePoint)
    (entries : list (nat * Operation)) : OperationGroup :=
  let mine := filter (fun entry => String.eqb (op_type (snd entry)) type) entries in
  {| dates := map (fun entry => op_date (snd entry)) mine;
     amounts := map (fun entry => op_amount (snd entry)) mine;
     signatures := map (fun entry => op_signature (snd entry)) mine;
     y_positions :=
       map (fun entry => (baseY timeline (fst entry) * typeOffset (op_type (snd entry)))%num)
           mine |}.

(** The group an object of groups has for [type] when it has grouped the
    indexed operations [entries]: none when no operation has the type. *)
Definition groupFor (type : string) (timeline : list TimelinePoint)
    (entries : list (nat * Operation)) : option OperationGroup :=
  if existsb (fun entry => String.eqb (op_type (snd entry)) type) entries
  then Some (markersOf type timeline entries) else None.

(** The trace of the realized rewards. *)
Definition rewardsLine (chart : ChartData) : Trace :=
  {| trace_name := "Realized Rewards";
     trace_x := chart_dates chart;
     trace_y := chart_rewards chart |}.

(* ================================================================== *)
(** * Facts about numbers *)
(* ================================================================== *)

Section NumFacts.

Open Scope Q_scope.

Lemma Qltb_lt (x y : Q) : Qltb x y = true <-> x < y.
Proof.
  unfold Qltb. rewrite negb_true_iff. split; intro H0.
  - apply Qnot_le_lt. intro Hle. apply Qle_bool_iff in Hle. congruence.
  - destruct (Qle_bool y x) eqn:E; [|reflexivity].
    apply Qle_bool_iff in E. exfalso. apply (Qlt_not_le _ _ H0 E).
Qed.

Lemma Qltb_ge (x y : Q) : Qltb x y = false <-> y <= x.
Proof.
  unfold Qltb. rewrite negb_false_iff. apply Qle_bool_iff.
Qed.

Lemma Qeq_bool_false (x y : Q) : Qeq_bool x y = false <-> ~ x == y.
Proof.
  split; intro H0.
  - intro E. apply Qeq_bool_iff in E. congruence.
  - destruct (Qeq_bool x y) eqn:E; [|reflexivity].
    apply Qeq_bool_iff in E. contradiction.
Qed.

Lemma same_refl (a : num) : (a == a)%num.
Proof. destruct a; simpl; auto. reflexivity. Qed.

Lemma same_sym (a b : num) : (a == b)%num -> (b == a)%num.
Proof. destruct a, b; simpl; auto. intro; symmetry; assumption. Qed.

Lemma same_trans (a b c : num) : (a == b)%num -> (b == c)%num -> (a == c)%num.
Proof.
  destruct a, b, c; simpl; auto; try contradiction.
  intros H1 H2. rewrite H1. exact H2.
Qed.

Lemma le_Fin (x y : Q) : (Fin x <= Fin y)%num <-> x <= y.
Proof. unfold le; simpl. apply Qle_bool_iff. Qed.

Lemma lt_Fin (x y : Q) : (Fin x < Fin y)%num <-> x < y.
Proof. unfold lt; simpl. apply Qltb_lt. Qed.

Lemma round6_Fin (q : Q) : round6 (Fin q) = Fin (Qround6 q).
Proof. reflexivity. Qed.

Lemma Qround6_le (x y : Q) : x <= y -> Qround6 x <= Qround6 y.
Proof.
  intro H0. unfold Qround6.
  apply Qmult_le_compat_r; [|discriminate].
  rewrite <- Zle_Qle. apply Qfloor_resp_le. lra.
Qed.


Lemma Qround6_nonneg (x : Q) : 0 <= x -> 0 <= Qround6 x.
Proof.
  intro H0. unfold Qround6.
  apply Qle_shift_div_l; [reflexivity|].
  setoid_replace (0 * 1000000) with (inject_Z 0) by reflexivity.
  rewrite <- Zle_Qle. change 0%Z with (Qfloor (inject_Z 0)).
  apply Qfloor_resp_le. change (inject_Z 0) with 0. lra.
Qed.



End NumFacts.

Section FiniteArithmetic.

Open Scope Q_scope.

Lemma add_Fin (x y : Q) : (Fin x + Fin y)%num = Fin (x + y).
Proof. reflexivity. Qed.

Lemma sub_Fin (x y : Q) : (Fin x - Fin y)%num = Fin (x - y).
Proof. reflexivity. Qed.

Lemma mul_Fin (x y : Q) : (Fin x * Fin y)%num = Fin (x * y).
Proof. reflexivity. Qed.

Lemma div_Fin (x y : Q) : ~ y == 0 -> (Fin x / Fin y)%num = Fin (x / y).
Proof.
  intro H0. apply Qeq_bool_false in H0. unfold div. rewrite H0. reflexivity.
Qed.

Lemma floor_Fin (x : Q) : floor (Fin x) = Fin (inject_Z (Qfloor x)).
Proof. reflexivity. Qed.

Lemma ltb_Fin (x y : Q) : ltb (Fin x) (Fin y) = Qltb x y.
Proof. reflexivity. Qed.

Lemma leb_Fin (x y : Q) : leb (Fin x) (Fin y) = Qle_bool x y.
Proof. reflexivity. Qed.

Lemma max_zero_Fin (x : Q) : max zero (Fin x) = Fin (if Qltb 0 x then x else 0).
Proof. unfold max, zero, ltb. simpl. destruct (Qltb 0 x); reflexivity. Qed.

Lemma min_Fin (x y : Q) : min (Fin x) (Fin y) = Fin (if Qltb y x then y else x).
Proof. unfold min, ltb. simpl. destruct (Qltb y x); reflexivity. Qed.

Lemma abs_Fin (x : Q) : abs (Fin x) = Fin (Qabs x).
Proof. reflexivity. Qed.

Lemma or0_Fin (x : Q) : or0 (Fin x) = Fin (if Qeq_bool x 0 then 0 else x).
Proof. unfold or0, truthy, zero. destruct (Qeq_bool x 0); reflexivity. Qed.

End FiniteArithmetic.

(* ================================================================== *)
(** * Facts about the vesting model *)
(* ================================================================== *)

Section VestingFacts.

Open Scope Q_scope.

(** On finite numbers and valid dates [calculateLockedAmount] is
    [remaining]. *)
Lemma calculateLockedAmount_finite (t0 t : Z) (L c p r : Q) :
  ~ p == 0 ->
  calculateLockedAmount (finiteSchedule t0 L c p r) (DateAt t)
  = Fin (remaining L c p r (hoursBetween t0 t)).
Proof.
  intro Hp.
  unfold calculateLockedAmount, remaining, hoursBetween, getTime, ofZ. simpl.
  rewrite sub_Fin, div_Fin by discriminate. rewrite ltb_Fin.
  destruct (Qltb _ c); [reflexivity|].
  rewrite sub_Fin, div_Fin, floor_Fin, mul_Fin, sub_Fin, max_zero_Fin by assumption.
  reflexivity.
Qed.

Lemma hoursBetween_le (t0 t1 t2 : Z) :
  (t1 <= t2)%Z -> hoursBetween t0 t1 <= hoursBetween t0 t2.
Proof.
  intro H0. unfold hoursBetween.
  apply Qmult_le_compat_r; [|discriminate].
  rewrite Zle_Qle in H0. lra.
Qed.

Lemma hoursBetween_shift (t0 h : Z) :
  hoursBetween t0 (t0 + h * 3600000) == inject_Z h.
Proof.
  unfold hoursBetween. rewrite inject_Z_plus, inject_Z_mult.
  change (inject_Z (1000 * 60 * 60)) with (inject_Z 3600000). field.
Qed.

Lemma hoursBetween_lt (t0 t h : Z) :
  (t < t0 + h * 3600000)%Z -> hoursBetween t0 t < inject_Z h.
Proof.
  intro H0. rewrite <- (hoursBetween_shift t0 h). unfold hoursBetween.
  apply Qmult_lt_compat_r; [reflexivity|].
  rewrite Zlt_Qlt in H0. lra.
Qed.

Lemma hoursBetween_ge (t0 t h : Z) :
  (t0 + h * 3600000 <= t)%Z -> inject_Z h <= hoursBetween t0 t.
Proof.
  intro H0. rewrite <- (hoursBetween_shift t0 h). apply hoursBetween_le. exact H0.
Qed.

Lemma periodsElapsed_le (c p e1 e2 : Q) :
  0 < p -> e1 <= e2 -> (periodsElapsed c p e1 <= periodsElapsed c p e2)%Z.
Proof.
  intros Hp H0. unfold periodsElapsed. apply Qfloor_resp_le.
  apply Qmult_le_compat_r; [lra|].
  apply Qlt_le_weak, Qinv_lt_0_compat, Hp.
Qed.

Lemma periodsElapsed_nonneg (c p e : Q) :
  0 < p -> c <= e -> (0 <= periodsElapsed c p e)%Z.
Proof.
  intros Hp H0. unfold periodsElapsed.
  change 0%Z with (Qfloor (inject_Z 0)). apply Qfloor_resp_le.
  change (inject_Z 0) with 0.
  apply Qle_shift_div_l; [exact Hp|]. lra.
Qed.

Lemma remaining_cliff (L c p r e : Q) : e < c -> remaining L c p r e = L.
Proof.
  intro H0. unfold remaining. apply Qltb_lt in H0. rewrite H0. reflexivity.
Qed.

Lemma remaining_after (L c p r e : Q) :
  c <= e ->
  remaining L c p r e
  = let x := L - inject_Z (periodsElapsed c p e) * r in if Qltb 0 x then x else 0.
Proof.
  intro H0. unfold remaining. apply Qltb_ge in H0. rewrite H0. reflexivity.
Qed.

Lemma remaining_comp (L c p r e e' : Q) :
  e == e' -> remaining L c p r e == remaining L c p r e'.
Proof.
  intro E. unfold remaining.
  assert (Hc : Qltb e c = Qltb e' c).
  { destruct (Qltb e' c) eqn:E'.
    - apply Qltb_lt. apply Qltb_lt in E'. lra.
    - apply Qltb_ge. apply Qltb_ge in E'. lra. }
  rewrite Hc. destruct (Qltb e' c); [reflexivity|].
  assert (Hf : Qfloor ((e - c) / p) = Qfloor ((e' - c) / p)).
  { apply Qfloor_comp. rewrite E. reflexivity. }
  rewrite Hf. reflexivity.
Qed.

Lemma remaining_nonneg (L c p r e : Q) : 0 <= L -> 0 <= remaining L c p r e.
Proof.
  intro HL. unfold remaining. destruct (Qltb e c); [exact HL|].
  cbv zeta. destruct (Qltb 0 _) eqn:E.
  - apply Qltb_lt in E. lra.
  - lra.
Qed.

Lemma remaining_le (L c p r e : Q) :
  0 <= L -> 0 < p -> 0 <= r -> remaining L c p r e <= L.
Proof.
  intros HL Hp Hr. destruct (Qlt_le_dec e c) as [H0|H0].
  - rewrite remaining_cliff by assumption. lra.
  - rewrite remaining_after by assumption. cbv zeta.
    assert (Hk := periodsElapsed_nonneg c p e Hp H0). rewrite Zle_Qle in Hk.
    change (inject_Z 0) with 0 in Hk.
    assert (0 <= inject_Z (periodsElapsed c p e) * r) by (apply Qmult_le_0_compat; assumption).
    destruct (Qltb 0 _); lra.
Qed.

Lemma remaining_mono (L c p r e1 e2 : Q) :
  0 <= L -> 0 < p -> 0 <= r -> e1 <= e2 ->
  remaining L c p r e2 <= remaining L c p r e1.
Proof.
  intros HL Hp Hr H0. destruct (Qlt_le_dec e1 c) as [H1|H1].
  - rewrite (remaining_cliff L c p r e1 H1). apply remaining_le; assumption.
  - assert (H2 : c <= e2) by lra.
    rewrite !remaining_after by assumption. cbv zeta.
    assert (Hk := periodsElapsed_le c p e1 e2 Hp H0). rewrite Zle_Qle in Hk.
    assert (inject_Z (periodsElapsed c p e1) * r <= inject_Z (periodsElapsed c p e2) * r)
      by (apply Qmult_le_compat_r; assumption).
    destruct (Qltb 0 (L - inject_Z (periodsElapsed c p e2) * r)) eqn:E2;
      destruct (Qltb 0 (L - inject_Z (periodsElapsed c p e1) * r)) eqn:E1;
      try apply Qltb_lt in E1; try apply Qltb_lt in E2;
      try apply Qltb_ge in E1; try apply Qltb_ge in E2; lra.
Qed.

End VestingFacts.

Lemma remaining_at_start (L c p r e : Q) :
  (0 <= L -> 0 <= c -> 0 < p -> e <= 0 -> remaining L c p r e == L)%Q.
Proof.
  intros HL Hc Hp He. destruct (Qlt_le_dec e c) as [H0|H0].
  - rewrite remaining_cliff by assumption. reflexivity.
  - rewrite remaining_after by assumption. cbv zeta.
    assert (E : ((e - c) / p == 0)%Q).
    { assert (e - c == 0)%Q as -> by lra. field. lra. }
    unfold periodsElapsed. rewrite (Qfloor_comp _ _ E).
    change (inject_Z (Qfloor 0)) with 0%Q.
    destruct (Qltb 0 (L - 0 * r)) eqn:E1.
    + lra.
    + apply Qltb_ge in E1. lra.
Qed.

(* ================================================================== *)
(** * Facts about the accumulator *)
(* ================================================================== *)

Section ReplayFacts.

Context `{host : Host}.

Ltac by_type ev :=
  destruct (is_type (nth_error ev 3) 0) eqn:?;
  [|destruct (is_type (nth_error ev 3) 1) eqn:?;
  [|destruct (is_type (nth_error ev 3) 2) eqn:?;
  [|destruct (is_type (nth_error ev 3) 3) eqn:?;
  [|destruct (is_type (nth_error ev 3) 4) eqn:?;
  [|destruct (is_type (nth_error ev 3) 5) eqn:?;
  [|destruct (is_type (nth_error ev 3) 6) eqn:?]]]]]].

Lemma is_type_exclusive (o : option jsval) (j k : Z) :
  is_type o j = true -> is_type o k = true -> j = k.
Proof.
  destruct o as [[|q|s]|]; simpl; try discriminate.
  intros H1 H2. apply Qeq_bool_iff in H1, H2.
  apply inject_Z_injective. rewrite <- H1. exact H2.
Qed.

Lemma replayEvent_short (st : Replay) (ev : StakerEvent) :
  (List.length ev < 11)%nat -> replayEvent st ev = st.
Proof.
  intro H0. unfold replayEvent. apply Nat.ltb_lt in H0. rewrite H0. reflexivity.
Qed.

Lemma replayEvent_timeline (st : Replay) (ev : StakerEvent) :
  (11 <= List.length ev)%nat ->
  timeline (replayEvent st ev)
  = (timeline st ++ [pointAfter (replayEvent st ev) (timestamp ev)])%list.
Proof.
  intro H0. unfold replayEvent. apply Nat.ltb_ge in H0. rewrite H0.
  destruct (event_type _) as [type_id type_label].
  by_type ev; reflexivity.
Qed.

Lemma replayEvent_operations (st : Replay) (ev : StakerEvent) :
  (11 <= List.length ev)%nat ->
  exists op, operations (replayEvent st ev) = (operations st ++ [op])%list
             /\ op_date op = timestamp ev.
Proof.
  intro H0. unfold replayEvent. apply Nat.ltb_ge in H0. rewrite H0.
  destruct (event_type _) as [type_id type_label].
  by_type ev; eexists; split; reflexivity.
Qed.

(** A set_vesting event leaves the three totals alone and goes through
    [setVesting]. *)
Lemma replayEvent_set_vesting (st : Replay) (ev : StakerEvent) :
  (11 <= List.length ev)%nat -> is_type (typeOf ev) 6 = true ->
  staked_total (replayEvent st ev) = staked_total st /\
  unstaked_total (replayEvent st ev) = unstaked_total st /\
  rewards_total (replayEvent st ev) = rewards_total st /\
  vestingSchedules (replayEvent st ev)
  = setVesting (Date_ofString (timestamp ev)) (abs (d_stake ev)) (num_cell_or0 ev 12)
               (num_cell_or0 ev 13) (num_cell_or0 ev 14) (vestingSchedules st).
Proof.
  intros H0 H6. unfold typeOf in H6.
  unfold replayEvent. apply Nat.ltb_ge in H0. rewrite H0.
  destruct (event_type _) as [type_id type_label].
  by_type ev;
    try match goal with
        | H : is_type _ ?k = true |- _ =>
            lazymatch k with
            | 6%Z => fail
            | _ => discriminate (is_type_exclusive _ _ _ H H6)
            end
        end.
  - repeat split.
  - discriminate.
Qed.

(** Every other event adds its deltas, and a compound or a claim its
    reward; the schedules stay. *)
Lemma replayEvent_deltas (st : Replay) (ev : StakerEvent) :
  (11 <= List.length ev)%nat -> is_type (typeOf ev) 6 = false ->
  staked_total (replayEvent st ev) = (staked_total st + d_stake ev)%num /\
  unstaked_total (replayEvent st ev) = (unstaked_total st + d_pending ev)%num /\
  rewards_total (replayEvent st ev)
  = (if is_type (typeOf ev) 4 || is_type (typeOf ev) 5
     then rewards_total st + reward_sol ev else rewards_total st)%num /\
  vestingSchedules (replayEvent st ev) = vestingSchedules st.
Proof.
  intros H0 H6. unfold typeOf in *.
  unfold replayEvent. apply Nat.ltb_ge in H0. rewrite H0.
  destruct (event_type _) as [type_id type_label].
  by_type ev; try discriminate; repeat split;
    repeat match goal with
      | H : is_type _ ?j = true |- context [is_type _ ?k] =>
          lazymatch goal with
          | H' : is_type _ k = _ |- _ => rewrite H'
          | _ => let E := fresh in
                 destruct (is_type (nth_error ev 3) k) eqn:E;
                 [discriminate (is_type_exclusive _ _ _ H E)|]
          end
      end; try reflexivity.
Qed.

End ReplayFacts.

Section ReplayInvariants.

Context `{host : Host}.

Lemma num_cell_or0_finite (ev : StakerEvent) (i : nat) :
  exists q : Q, num_cell_or0 ev i = Fin q.
Proof.
  unfold num_cell_or0. destruct (nth_error ev i) as [[|q|s]|]; try (exists 0%Q; reflexivity).
  rewrite or0_Fin. eexists. reflexivity.
Qed.

Lemma Forall_assign {A : Type} (P : A -> Prop) (x : A) (l : list A) (i : nat) :
  Forall P l -> P x -> Forall P (assign i x l).
Proof.
  intros Hl Hx. revert i. induction Hl as [|y l Hy Hl IH]; intro i.
  - destruct i; constructor.
  - destruct i; simpl; constructor; auto.
Qed.

Lemma setVesting_Forall (P : VestingSchedule -> Prop) (d : Date) (a c p r : num)
    (l : list VestingSchedule) :
  Forall P l ->
  (gtb a zero = true -> gtb p zero = true -> gtb r zero = true ->
   P {| startTime := d; lockedTuna := a; cliffHours := c;
        unlockPeriodHours := p; unlockRateTuna := r |}) ->
  Forall P (setVesting d a c p r l).
Proof.
  intros Hl Hnew. unfold setVesting.
  destruct (gtb a zero) eqn:Ea; [|exact Hl].
  destruct (gtb p zero) eqn:Ep; [|exact Hl].
  destruct (gtb r zero) eqn:Er; [|exact Hl].
  simpl. destruct (findIndex _ l).
  - apply Forall_assign; auto.
  - apply Forall_app. split; [exact Hl|]. constructor; auto.
Qed.

Lemma abs_positive (q : Q) : gtb (abs (Fin q)) zero = true -> (0 < Qabs q)%Q.
Proof. unfold gtb. rewrite abs_Fin. intro H0. apply (lt_Fin 0 (Qabs q)) in H0. exact H0. Qed.

(** The guard of the set_vesting branch: every schedule of the accumulator
    has a strictly positive locked amount, period and rate. *)
Lemma replayEvent_positive (st : Replay) (ev : StakerEvent) :
  Forall positiveSchedule (vestingSchedules st) ->
  Forall positiveSchedule (vestingSchedules (replayEvent st ev)).
Proof.
  intro Hst. destruct (Nat.lt_ge_cases (List.length ev) 11) as [H0|H0].
  - rewrite replayEvent_short by exact H0. exact Hst.
  - destruct (is_type (typeOf ev) 6) eqn:E6.
    + destruct (replayEvent_set_vesting st ev H0 E6) as (_ & _ & _ & ->).
      apply setVesting_Forall; [exact Hst|].
      unfold d_stake.
      destruct (num_cell_or0_finite ev 5) as [a ->].
      destruct (num_cell_or0_finite ev 12) as [c ->].
      destruct (num_cell_or0_finite ev 13) as [p ->].
      destruct (num_cell_or0_finite ev 14) as [r ->].
      intros Ha Hp Hr. exists (Qabs a), c, p, r. simpl.
      repeat split; try reflexivity.
      * apply abs_positive, Ha.
      * apply (lt_Fin 0 p), Hp.
      * apply (lt_Fin 0 r), Hr.
    + destruct (replayEvent_deltas st ev H0 E6) as (_ & _ & _ & ->). exact Hst.
Qed.

Lemma replay_positive (events : list StakerEvent) (st : Replay) :
  Forall positiveSchedule (vestingSchedules st) ->
  Forall positiveSchedule (vestingSchedules (fold_left replayEvent events st)).
Proof.
  revert st. induction events as [|ev events IH]; intros st Hst; simpl.
  - exact Hst.
  - apply IH, replayEvent_positive, Hst.
Qed.








End ReplayInvariants.

Section TimelineInvariants.

Context `{host : Host}.





Lemma round6_nonnegative (x : num) : (zero <= x)%num -> (zero <= round6 x)%num.
Proof.
  destruct x as [| | |q]; try discriminate.
  - intros _. reflexivity.
  - intro H0. rewrite round6_Fin. apply le_Fin. apply Qround6_nonneg.
    apply le_Fin in H0. exact H0.
Qed.


(** ** The extender *)




Lemma latestPoint_In (first : TimelinePoint) (rest : list TimelinePoint) :
  In (latestPoint first rest) (first :: rest).
Proof.
  unfold latestPoint.
  assert (G : forall l cand, In cand (first :: rest) -> incl l rest ->
              In (fold_left (fun latest p => if (date latest <? date p)%string then p else latest)
                            l cand) (first :: rest)).
  { induction l as [|q l IH]; intros cand Hc Hl; simpl; [exact Hc|].
    apply IH.
    - destruct (_ <? _)%string; [|exact Hc]. right. apply Hl. left. reflexivity.
    - intros y Hy. apply Hl. right. exact Hy. }
  apply G; [left; reflexivity | apply incl_refl].
Qed.

End TimelineInvariants.

Section ExtenderInvariants.

Context `{host : Host}.






Lemma insertSorted_perm (p : TimelinePoint) (l : list TimelinePoint) :
  Permutation (insertSorted p l) (p :: l).
Proof.
  induction l as [|q l IH]; simpl; [reflexivity|].
  destruct (localeCompare (date p) (date q)); try reflexivity.
  rewrite IH. apply perm_swap.
Qed.

(** The sort moves the points and changes none. *)
Lemma sortTimeline_perm (l : list TimelinePoint) : Permutation (sortTimeline l) l.
Proof.
  induction l as [|p l IH]; simpl; [reflexivity|].
  rewrite insertSorted_perm. constructor. exact IH.
Qed.

Lemma last_In {A : Type} (x d : A) (l : list A) : In (last (x :: l) d) (x :: l).
Proof.
  revert x. induction l as [|y l IH]; intro x.
  - left. reflexivity.
  - right. exact (IH y).
Qed.







End ExtenderInvariants.

(* ================================================================== *)
(** * Rounding and capping commute *)
(* ================================================================== *)

Section RoundingFacts.

Open Scope Q_scope.

Lemma Qltb_comp (x x' y y' : Q) : x == x' -> y == y' -> Qltb x y = Qltb x' y'.
Proof.
  intros Ex Ey. destruct (Qltb x' y') eqn:E.
  - apply Qltb_lt. apply Qltb_lt in E. lra.
  - apply Qltb_ge. apply Qltb_ge in E. lra.
Qed.




Lemma min_same (a a' b b' : num) :
  (a == a')%num -> (b == b')%num -> (min a b == min a' b')%num.
Proof.
  destruct a, a'; simpl; try contradiction; destruct b, b'; simpl; try contradiction;
    try (intros _ _; exact I); try (intros _ E; exact E); try (intros E _; exact E).
  intros E1 E2. rewrite ?min_Fin. simpl.
  rewrite (Qltb_comp q1 q2 q q0 E2 E1). destruct (Qltb q2 q0); assumption.
Qed.

Lemma round6_min (a b : num) : (round6 (min a b) == min (round6 a) (round6 b))%num.
Proof.
  destruct a as [| | |x], b as [| | |y]; try exact I; try apply same_refl.
  rewrite min_Fin, !round6_Fin, min_Fin. simpl.
  destruct (Qltb y x) eqn:E.
  - apply Qltb_lt in E. destruct (Qltb (Qround6 y) (Qround6 x)) eqn:E'; [reflexivity|].
    apply Qltb_ge in E'. apply Qle_antisym; [|exact E'].
    apply Qround6_le. lra.
  - apply Qltb_ge in E. destruct (Qltb (Qround6 y) (Qround6 x)) eqn:E'; [|reflexivity].
    apply Qltb_lt in E'. apply Qround6_le in E. lra.
Qed.


End RoundingFacts.

(* ================================================================== *)
(** * Facts about the schedule array *)
(* ================================================================== *)

Section ScheduleArray.

Context {A : Type}.

Lemma findIndex_none (f : A -> bool) (l : list A) :
  (forall x, In x l -> f x = false) -> findIndex f l = None.
Proof.
  induction l as [|y l IH]; intro H0; simpl; [reflexivity|].
  rewrite (H0 y) by (left; reflexivity).
  rewrite IH; [reflexivity|]. intros x Hx. apply H0. right. exact Hx.
Qed.

Lemma findIndex_first (f : A -> bool) (l : list A) (i : nat) (x : A) :
  nth_error l i = Some x -> f x = true ->
  (forall j y, (j < i)%nat -> nth_error l j = Some y -> f y = false) ->
  findIndex f l = Some i.
Proof.
  revert i. induction l as [|y l IH]; intros i Hi Hx Hbefore.
  - destruct i; discriminate.
  - destruct i as [|i]; simpl in *.
    + injection Hi as ->. rewrite Hx. reflexivity.
    + rewrite (Hbefore O y) by (simpl; auto with arith).
      rewrite (IH i Hi Hx); [reflexivity|].
      intros j z Hj Hz. apply (Hbefore (S j) z); [lia|exact Hz].
Qed.

Lemma assign_length (i : nat) (x : A) (l : list A) :
  List.length (assign i x l) = List.length l.
Proof.
  revert i. induction l as [|y l IH]; intro i; destruct i; simpl; auto.
Qed.

Lemma assign_same (i : nat) (x : A) (l : list A) :
  (i < List.length l)%nat -> nth_error (assign i x l) i = Some x.
Proof.
  revert i. induction l as [|y l IH]; intros i Hi; simpl in *; [lia|].
  destruct i; simpl; [reflexivity|]. apply IH. lia.
Qed.

Lemma assign_other (i j : nat) (x : A) (l : list A) :
  j <> i -> nth_error (assign i x l) j = nth_error l j.
Proof.
  revert i j. induction l as [|y l IH]; intros i j Hij; destruct i, j; simpl; auto.
  contradiction.
Qed.

End ScheduleArray.

(* ================================================================== *)
(** * The order of timestamp strings *)
(* ================================================================== *)

Section StringOrder.

Open Scope string_scope.

Lemma string_compare_refl (a : string) : (a ?= a) = Eq.
Proof.
  induction a as [|x a IH]; simpl; [reflexivity|].
  unfold Ascii.compare. rewrite N.compare_refl. exact IH.
Qed.

Lemma string_leb_refl (a : string) : (a <=? a) = true.
Proof. unfold String.leb. rewrite string_compare_refl. reflexivity. Qed.

Lemma string_ltb_leb (a b : string) : (a <? b) = negb (b <=? a).
Proof.
  unfold String.ltb, String.leb. rewrite (String.compare_antisym a b).
  destruct (b ?= a); reflexivity.
Qed.

Lemma string_leb_trans (a b c : string) :
  (a <=? b) = true -> (b <=? c) = true -> (a <=? c) = true.
Proof.
  unfold String.leb. revert b c.
  induction a as [|x a IH]; intros [|y b] [|z c]; simpl; try reflexivity; try discriminate.
  unfold Ascii.compare.
  destruct (N.compare_spec (N_of_ascii x) (N_of_ascii y)) as [Exy|Lxy|Gxy];
    try discriminate;
    destruct (N.compare_spec (N_of_ascii y) (N_of_ascii z)) as [Eyz|Lyz|Gyz];
    try discriminate; intros H1 H2.
  - rewrite Exy, Eyz, N.compare_refl. exact (IH b c H1 H2).
  - rewrite Exy. apply N.compare_lt_iff in Lyz. rewrite Lyz. reflexivity.
  - rewrite <- Eyz. apply N.compare_lt_iff in Lxy. rewrite Lxy. reflexivity.
  - assert (L : (N_of_ascii x < N_of_ascii z)%N) by lia.
    apply N.compare_lt_iff in L. rewrite L. reflexivity.
Qed.


End StringOrder.

(* ================================================================== *)
(** * Facts about the search for the previous point *)
(* ================================================================== *)

Section PreviousPoint.

Open Scope string_scope.





End PreviousPoint.

Section UnlockPoints.

Variable existingDates : list string.
Variable schedules : list VestingSchedule.

Let fresh (unlockTimes : list Z) : list Z :=
  filter (fun u => negb (existsb (String.eqb (toISOString u)) existingDates)) unlockTimes.



End UnlockPoints.

(* ================================================================== *)
(** * Facts about the summary *)
(* ================================================================== *)

Section SummaryFacts.

Context `{host : Host}.

(** When both dates parse, the day count is the number of whole days from
    the first date to the last activity, plus one. *)
Lemma daysActive_parsed (firstDate lastActivityDate : string) (a b : Z) :
  Date_ofString firstDate = DateAt a ->
  Date_ofString lastActivityDate = DateAt b ->
  (daysActive firstDate lastActivityDate == ofZ ((b - a) / 86400000 + 1))%num.
Proof.
  intros Ha Hb. unfold daysActive. rewrite Ha, Hb. unfold getTime, ofZ.
  rewrite sub_Fin, div_Fin by discriminate. rewrite floor_Fin, add_Fin.
  assert (E : Qfloor ((inject_Z b - inject_Z a) / inject_Z (1000 * 60 * 60 * 24))
              = ((b - a) / 86400000)%Z).
  { rewrite (Zdiv_Qdiv (b - a) 86400000). apply Qfloor_comp.
    unfold Z.sub. rewrite inject_Z_plus, inject_Z_opp. reflexivity. }
  rewrite E. unfold same. rewrite inject_Z_plus. reflexivity.
Qed.

(** When one of the two dates does not parse, the day count is NaN. *)
Lemma daysActive_unparsed (firstDate lastActivityDate : string) :
  Date_ofString firstDate = InvalidDate \/ Date_ofString lastActivityDate = InvalidDate ->
  daysActive firstDate lastActivityDate = NaN.
Proof.
  unfold daysActive. intros [-> | ->].
  - destruct (Date_ofString lastActivityDate); reflexivity.
  - destruct (Date_ofString firstDate); reflexivity.
Qed.

End SummaryFacts.

(* ================================================================== *)
(** * The extension only adds points *)
(* ================================================================== *)

Section ExtenderFrame.

Context `{host : Host}.

Lemma insertUnlockPoint_appends (existingDates : list string)
    (schedules : list VestingSchedule) (tl : list TimelinePoint) (u : Z) :
  exists added, insertUnlockPoint existingDates schedules tl u = tl ++ added.
Proof.
  unfold insertUnlockPoint.
  destruct (existsb _ existingDates); [exists []; symmetry; apply app_nil_r|].
  destruct tl as [|first rest]; [exists []; reflexivity|].
  eexists. reflexivity.
Qed.

Lemma insertUnlockPoints_appends (schedules : list VestingSchedule)
    (tl : list TimelinePoint) (unlockTimes : list Z) :
  exists added, insertUnlockPoints schedules tl unlockTimes = tl ++ added.
Proof.
  unfold insertUnlockPoints. generalize (map date tl) as existingDates.
  intro existingDates. revert tl.
  induction unlockTimes as [|u us IH]; intro tl; simpl.
  - exists []. symmetry. apply app_nil_r.
  - destruct (insertUnlockPoint_appends existingDates schedules tl u) as [a ->].
    destruct (IH (tl ++ a)) as [b ->]. exists (a ++ b). symmetry. apply app_assoc.
Qed.


Lemma extendToCacheEnd_appends (cacheEndDate : string) (tl : list TimelinePoint) :
  exists added, extendToCacheEnd cacheEndDate tl = tl ++ added.
Proof.
  unfold extendToCacheEnd. destruct tl as [|first rest]; [exists []; reflexivity|].
  destruct (_ <? _)%string; [eexists; reflexivity|].
  exists []. symmetry. apply app_nil_r.
Qed.


End ExtenderFrame.

(* ================================================================== *)
(** * The dates of the accumulated timeline *)
(* ================================================================== *)

Section AccumulatedDates.

Context `{host : Host}.

Lemma replay_dates_from (events : list StakerEvent) (st : Replay) :
  map date (timeline (fold_left replayEvent events st))
  = map date (timeline st) ++ map timestamp (replayed events).
Proof.
  revert st. induction events as [|ev events IH]; intro st; simpl.
  - symmetry. apply app_nil_r.
  - rewrite IH. unfold replayed. simpl filter.
    destruct (Nat.lt_ge_cases (List.length ev) 11) as [H0|H0].
    + rewrite replayEvent_short by exact H0.
      apply Nat.ltb_lt in H0. rewrite H0. reflexivity.
    + rewrite replayEvent_timeline by exact H0.
      apply Nat.ltb_ge in H0. rewrite H0. simpl.
      rewrite map_app, <- app_assoc. reflexivity.
Qed.

(** The accumulator pushes one point per event it does not skip, dated at
    the timestamp of the event. *)
Lemma replay_dates (events : list StakerEvent) :
  map date (timeline (replay events)) = map timestamp (replayed events).
Proof. unfold replay. rewrite replay_dates_from. reflexivity. Qed.

(** From events in chronological order the accumulated timeline starts
    with its earliest point. *)
Lemma chronological_startsWithEarliest (events : list StakerEvent) :
  chronological events -> startsWithEarliest (timeline (replay events)) = true.
Proof.
  unfold chronological. intro Hsorted.
  assert (Hdates := replay_dates events).
  destruct (timeline (replay events)) as [|first rest]; [reflexivity|].
  destruct (replayed events) as [|ev evs]; [discriminate|].
  simpl in Hdates. injection Hdates as Hfirst Hrest.
  simpl. apply forallb_forall. intros q Hq.
  apply StronglySorted_inv in Hsorted. destruct Hsorted as [_ Hall].
  rewrite Forall_forall in Hall.
  assert (Hin : In (date q) (map timestamp evs)).
  { rewrite <- Hrest. apply in_map, Hq. }
  apply in_map_iff in Hin. destruct Hin as (e & He & Hine).
  rewrite Hfirst, <- He. apply Hall, Hine.
Qed.

End AccumulatedDates.

(* ================================================================== *)
(** * The order of ISO timestamps *)
(* ================================================================== *)

Section TimestampOrder.

Open Scope Z_scope.

Lemma compare_div_mod (a b k : Z) :
  0 < k -> (a ?= b) = lexico (a / k ?= b / k) (a mod k ?= b mod k).
Proof.
  intro Hk.
  assert (Ha := Z.div_mod a k ltac:(lia)). assert (Hb := Z.div_mod b k ltac:(lia)).
  assert (Ha' := Z.mod_pos_bound a k Hk). assert (Hb' := Z.mod_pos_bound b k Hk).
  unfold lexico.
  destruct (Z.compare_spec (a / k) (b / k)) as [E|L|G].
  - destruct (Z.compare_spec (a mod k) (b mod k)) as [E'|L'|G'].
    + apply Z.compare_eq_iff. rewrite Ha, Hb, E, E'. reflexivity.
    + apply Z.compare_lt_iff. rewrite Ha, Hb, E. lia.
    + apply Z.compare_gt_iff. rewrite Ha, Hb, E. lia.
  - apply Z.compare_lt_iff. nia.
  - apply Z.compare_gt_iff. nia.
Qed.

Lemma digit_compare (a b : Z) :
  0 <= a < 10 -> 0 <= b < 10 -> Ascii.compare (digit a) (digit b) = (a ?= b).
Proof.
  intros Ha Hb. unfold Ascii.compare, digit.
  rewrite !N_ascii_embedding by lia.
  rewrite <- N2Z.inj_compare, !N2Z.inj_add, !Z2N.id by lia.
  apply Z.add_compare_mono_l.
Qed.

Lemma digits_S (w : nat) (n : Z) (acc : string) :
  digits (S w) n acc = digits w (n / 10) (String (digit (n mod 10)) acc).
Proof. reflexivity. Qed.

Lemma string_compare_cons (x y : ascii) (s s' : string) :
  String.compare (String x s) (String y s')
  = lexico (Ascii.compare x y) (String.compare s s').
Proof. simpl. destruct (Ascii.compare x y); reflexivity. Qed.

Lemma digits_compare (w : nat) :
  forall (a b : Z) (s s' : string),
    0 <= a < 10 ^ Z.of_nat w -> 0 <= b < 10 ^ Z.of_nat w ->
    String.compare (digits w a s) (digits w b s') = lexico (a ?= b) (String.compare s s').
Proof.
  induction w as [|w IH]; intros a b s s' Ha Hb.
  - simpl in *. assert (a = 0) by lia. assert (b = 0) by lia. subst. reflexivity.
  - rewrite Nat2Z.inj_succ, Z.pow_succ_r in Ha, Hb by lia.
    rewrite !digits_S, IH, string_compare_cons.
    + rewrite digit_compare by (apply Z.mod_pos_bound; lia).
      rewrite (compare_div_mod a b 10) by lia.
      destruct (a / 10 ?= b / 10); simpl; try reflexivity.
    + split; [apply Z.div_pos; lia|]. apply Z.div_lt_upper_bound; lia.
    + split; [apply Z.div_pos; lia|]. apply Z.div_lt_upper_bound; lia.
Qed.

Lemma all_from_spec (test : Z -> bool) (count : nat) :
  forall from, all_from count from test = true ->
  forall x, from <= x < from + Z.of_nat count -> test x = true.
Proof.
  induction count as [|c IH]; intros from H0 x Hx.
  - simpl in Hx. lia.
  - simpl in H0. apply andb_true_iff in H0. destruct H0 as [H1 H2].
    destruct (Z.eq_dec x from) as [->|Hne]; [exact H1|].
    apply (IH (from + 1) H2). lia.
Qed.

Lemma civil_from_days_split (z : Z) :
  civil_from_days z
  = let era := (z + 719468) / 146097 in
    let doe := (z + 719468) mod 146097 in
    let yoe := year_of_era doe in
    let '(shift, m, d) := month_day (doe - year_start yoe) in
    (yoe + shift + era * 400, m, d).
Proof.
  unfold civil_from_days, month_day, year_of_era, year_start. cbv zeta.
  rewrite (Z.mod_eq (z + 719468) 146097) by lia.
  replace (z + 719468 - (z + 719468) / 146097 * 146097)
    with (z + 719468 - 146097 * ((z + 719468) / 146097)) by ring.
  set (doe := z + 719468 - 146097 * ((z + 719468) / 146097)).
  set (yoe := (doe - doe / 1460 + doe / 36524 - doe / 146096) / 365).
  set (doy := doe - (365 * yoe + yoe / 4 - yoe / 100)).
  set (mp := (5 * doy + 2) / 153).
  destruct ((if mp <? 10 then mp + 3 else mp - 9) <=? 2); f_equal; f_equal; ring.
Qed.

(** The numerator of [year_of_era] does not decrease from a day to the
    next. *)
Lemma year_of_era_step (n : Z) :
  0 <= n < 146096 -> year_of_era n <= year_of_era (n + 1).
Proof.
  intro Hn. unfold year_of_era. apply Z.div_le_mono; [lia|].
  Z.div_mod_to_equations. lia.
Qed.

Lemma year_of_era_mono (a b : Z) :
  0 <= a -> a <= b -> b <= 146096 -> year_of_era a <= year_of_era b.
Proof.
  intros Ha Hab Hb.
  replace b with (a + Z.of_nat (Z.to_nat (b - a))) in * by lia.
  induction (Z.to_nat (b - a)) as [|k IH].
  - rewrite Z.add_0_r. lia.
  - rewrite Nat2Z.inj_succ in *.
    apply Z.le_trans with (year_of_era (a + Z.of_nat k)); [apply IH; lia|].
    replace (a + Z.succ (Z.of_nat k)) with (a + Z.of_nat k + 1) by lia.
    apply year_of_era_step. lia.
Qed.

Lemma years_checked : all_from 400 0 year_ends_checked = true.
Proof. vm_compute. reflexivity. Qed.

Lemma year_start_step (y : Z) :
  0 <= y -> 365 <= year_start (y + 1) - year_start y <= 366.
Proof. intro Hy. unfold year_start. Z.div_mod_to_equations. lia. Qed.

(** Every day of the era but the last lies in a year of the era. *)
Lemma year_found (n : Z) :
  0 <= n < 146096 ->
  exists y, 0 <= y < 400 /\ year_start y <= n < year_start (y + 1).
Proof.
  intro Hn.
  assert (G : forall k : nat, n < year_start (Z.of_nat k) ->
              exists y, 0 <= y < Z.of_nat k /\ year_start y <= n < year_start (y + 1)).
  { induction k as [|k IH]; intro Hk.
    - change (year_start (Z.of_nat 0)) with 0 in Hk. lia.
    - destruct (Z_lt_le_dec n (year_start (Z.of_nat k))) as [Hlt|Hge].
      + destruct (IH Hlt) as (y & Hy & Hin). exists y. split; [lia|exact Hin].
      + exists (Z.of_nat k). rewrite Nat2Z.inj_succ in Hk.
        replace (Z.succ (Z.of_nat k)) with (Z.of_nat k + 1) in Hk by lia. lia. }
  destruct (G 400%nat) as (y & Hy & Hin).
  - change (year_start (Z.of_nat 400)) with 146096. lia.
  - exists y. split; [lia|exact Hin].
Qed.

Lemma year_of_era_spec (n : Z) :
  0 <= n < 146097 ->
  0 <= year_of_era n < 400 /\
  0 <= n - year_start (year_of_era n) <= 365 /\
  (n < 146096 -> n < year_start (year_of_era n + 1)).
Proof.
  intro Hn. destruct (Z.eq_dec n 146096) as [->|Hne].
  { split; [|split]; [vm_compute; split; congruence|vm_compute; split; congruence|lia]. }
  destruct (year_found n ltac:(lia)) as (y & Hy & Hin).
  assert (Hc := all_from_spec year_ends_checked 400 0 years_checked y ltac:(lia)).
  unfold year_ends_checked in Hc. apply andb_true_iff in Hc. destruct Hc as [H1 H2].
  apply Z.eqb_eq in H1, H2.
  assert (Hs := year_start_step y ltac:(lia)).
  assert (Hlast : year_start (y + 1) <= 146096).
  { unfold year_start. Z.div_mod_to_equations. lia. }
  assert (Hfirst : 0 <= year_start y).
  { unfold year_start. Z.div_mod_to_equations. lia. }
  assert (E : year_of_era n = y).
  { apply Z.le_antisymm.
    - rewrite <- H2. apply year_of_era_mono; lia.
    - rewrite <- H1 at 1. apply year_of_era_mono; lia. }
  rewrite E. split; [lia|]. split; [lia|]. intros _. lia.
Qed.

Lemma month_days_checked : all_from 366 0 month_day_checked = true.
Proof. vm_compute. reflexivity. Qed.

Lemma month_day_spec (doy : Z) :
  0 <= doy <= 365 ->
  let '(shift, m, d) := month_day doy in
  0 <= shift <= 1 /\ 1 <= m <= 12 /\ 1 <= d <= 31 /\
  (doy < 365 -> date_compare (shift, m, d) (month_day (doy + 1)) = Lt) /\
  (364 <= doy -> shift = 1 /\ m = 2).
Proof.
  intro Hdoy.
  assert (Hc := all_from_spec month_day_checked 366 0 month_days_checked doy ltac:(lia)).
  unfold month_day_checked in Hc. destruct (month_day doy) as [[shift m] d].
  apply andb_true_iff in Hc. destruct Hc as [Hc Hlast].
  apply andb_true_iff in Hc. destruct Hc as [Hc Hnext].
  apply andb_true_iff in Hc. destruct Hc as [Hc H6].
  apply andb_true_iff in Hc. destruct Hc as [Hc H5].
  apply andb_true_iff in Hc. destruct Hc as [Hc H4].
  apply andb_true_iff in Hc. destruct Hc as [Hc H3].
  apply andb_true_iff in Hc. destruct Hc as [H1 H2].
  apply Z.leb_le in H1, H2, H3, H4, H5, H6.
  split; [lia|]. split; [lia|]. split; [lia|]. split.
  - intro Hlt. apply orb_true_iff in Hnext. destruct Hnext as [H|H].
    + apply Z.eqb_eq in H. lia.
    + destruct (date_compare (shift, m, d) (month_day (doy + 1))); congruence.
  - intro Hge. apply orb_true_iff in Hlast. destruct Hlast as [H|H].
    + apply Z.ltb_lt in H. lia.
    + apply andb_true_iff in H. destruct H as [Hs Hm].
      apply Z.eqb_eq in Hs, Hm. auto.
Qed.

Lemma year_start_lt (y y' : Z) : y < y' -> year_start y < year_start y'.
Proof. intro H0. unfold year_start. Z.div_mod_to_equations. lia. Qed.

Lemma date_compare_shift (k y1 m1 d1 y2 m2 d2 : Z) :
  date_compare (y1 + k, m1, d1) (y2 + k, m2, d2) = date_compare (y1, m1, d1) (y2, m2, d2).
Proof.
  unfold date_compare. rewrite (Z.add_comm y1 k), (Z.add_comm y2 k), Z.add_compare_mono_l.
  reflexivity.
Qed.

Lemma era_day_next (n : Z) :
  0 <= n < 146096 -> date_compare (era_day n) (era_day (n + 1)) = Lt.
Proof.
  intro Hn.
  destruct (year_of_era_spec n ltac:(lia)) as (Hy & Hdoy & Hend).
  destruct (year_of_era_spec (n + 1) ltac:(lia)) as (Hy' & Hdoy' & _).
  assert (Hmono := year_of_era_step n Hn).
  specialize (Hend ltac:(lia)).
  unfold era_day.
  set (y := year_of_era n) in *. set (y' := year_of_era (n + 1)) in *.
  assert (Hmd := month_day_spec (n - year_start y) Hdoy).
  destruct (Z.eq_dec y' y) as [E|Hne].
  - rewrite E in *. replace (n + 1 - year_start y) with (n - year_start y + 1) by ring.
    destruct (month_day (n - year_start y)) as [[shift m] d].
    destruct Hmd as (_ & _ & _ & Hnext & _).
    specialize (Hnext ltac:(lia)).
    destruct (month_day (n - year_start y + 1)) as [[shift' m'] d'].
    rewrite (Z.add_comm y shift), (Z.add_comm y shift'), date_compare_shift.
    exact Hnext.
  - assert (Hs : year_start (y + 1) <= year_start y').
    { destruct (Z.eq_dec y' (y + 1)) as [->|Hne']; [lia|].
      apply Z.lt_le_incl, year_start_lt. lia. }
    assert (E1 : year_start y' = n + 1) by lia.
    assert (E2 : y' = y + 1).
    { destruct (Z.eq_dec y' (y + 1)) as [->|Hne']; [reflexivity|].
      assert (year_start (y + 1) < year_start y') by (apply year_start_lt; lia). lia. }
    rewrite E1, Z.sub_diag. change (month_day 0) with (0, 3, 1).
    assert (Hstep := year_start_step y ltac:(lia)).
    destruct (month_day (n - year_start y)) as [[shift m] d].
    destruct Hmd as (_ & _ & _ & _ & Hlast).
    destruct Hlast as [-> ->]; [rewrite E2 in E1; lia|].
    rewrite E2. unfold date_compare.
    replace (y + 1 + 0) with (y + 1) by ring. rewrite Z.compare_refl. reflexivity.
Qed.

Lemma date_compare_lt (y1 m1 d1 y2 m2 d2 : Z) :
  date_compare (y1, m1, d1) (y2, m2, d2) = Lt <->
  y1 < y2 \/ (y1 = y2 /\ (m1 < m2 \/ (m1 = m2 /\ d1 < d2))).
Proof.
  unfold date_compare, lexico.
  destruct (Z.compare_spec y1 y2); destruct (Z.compare_spec m1 m2);
    rewrite ?Z.compare_lt_iff; split; intro H1; try lia; try discriminate; reflexivity.
Qed.

Lemma date_compare_lt_trans (a b c : Z * Z * Z) :
  date_compare a b = Lt -> date_compare b c = Lt -> date_compare a c = Lt.
Proof.
  destruct a as [[y1 m1] d1], b as [[y2 m2] d2], c as [[y3 m3] d3].
  rewrite !date_compare_lt. lia.
Qed.

Lemma civil_from_days_era_day (z : Z) :
  civil_from_days z
  = let '(y, m, d) := era_day ((z + 719468) mod 146097) in
    (y + (z + 719468) / 146097 * 400, m, d).
Proof.
  rewrite civil_from_days_split. cbv zeta. unfold era_day.
  destruct (month_day _) as [[shift m] d]. reflexivity.
Qed.

(** The date of a day is before the date of the next day. *)
Lemma civil_from_days_next (z : Z) :
  date_compare (civil_from_days z) (civil_from_days (z + 1)) = Lt.
Proof.
  rewrite !civil_from_days_era_day.
  replace (z + 1 + 719468) with (z + 719468 + 1) by ring.
  set (n := z + 719468).
  assert (Hmod := Z.mod_pos_bound n 146097 ltac:(lia)).
  destruct (Z.eq_dec (n mod 146097) 146096) as [E|Hne].
  - assert (E1 : (n + 1) mod 146097 = 0) by (Z.div_mod_to_equations; lia).
    assert (E2 : (n + 1) / 146097 = n / 146097 + 1) by (Z.div_mod_to_equations; lia).
    rewrite E, E1, E2.
    change (era_day 146096) with (400, 2, 29). change (era_day 0) with (0, 3, 1).
    unfold date_compare.
    replace (0 + (n / 146097 + 1) * 400) with (400 + n / 146097 * 400) by ring.
    rewrite Z.compare_refl. reflexivity.
  - assert (E1 : (n + 1) mod 146097 = n mod 146097 + 1) by (Z.div_mod_to_equations; lia).
    assert (E2 : (n + 1) / 146097 = n / 146097) by (Z.div_mod_to_equations; lia).
    rewrite E1, E2.
    assert (Hnext := era_day_next (n mod 146097) ltac:(lia)).
    destruct (era_day (n mod 146097)) as [[y m] d].
    destruct (era_day (n mod 146097 + 1)) as [[y' m'] d'].
    rewrite date_compare_shift. exact Hnext.
Qed.

Lemma civil_from_days_lt (z1 z2 : Z) :
  z1 < z2 -> date_compare (civil_from_days z1) (civil_from_days z2) = Lt.
Proof.
  intro H0. replace z2 with (z1 + 1 + Z.of_nat (Z.to_nat (z2 - z1 - 1))) by lia.
  induction (Z.to_nat (z2 - z1 - 1)) as [|k IH].
  - rewrite Z.add_0_r. apply civil_from_days_next.
  - rewrite Nat2Z.inj_succ.
    replace (z1 + 1 + Z.succ (Z.of_nat k)) with (z1 + 1 + Z.of_nat k + 1) by lia.
    eapply date_compare_lt_trans; [exact IH|apply civil_from_days_next].
Qed.

Lemma date_compare_refl (a : Z * Z * Z) : date_compare a a = Eq.
Proof.
  destruct a as [[y m] d]. unfold date_compare. rewrite !Z.compare_refl. reflexivity.
Qed.

Lemma date_compare_antisym (a b : Z * Z * Z) :
  date_compare a b = CompOpp (date_compare b a).
Proof.
  destruct a as [[y1 m1] d1], b as [[y2 m2] d2]. unfold date_compare, lexico.
  rewrite (Z.compare_antisym y2 y1), (Z.compare_antisym m2 m1), (Z.compare_antisym d2 d1).
  destruct (y2 ?= y1), (m2 ?= m1), (d2 ?= d1); reflexivity.
Qed.

(** The order of the dates is the order of the days. *)
Lemma civil_from_days_compare (z1 z2 : Z) :
  date_compare (civil_from_days z1) (civil_from_days z2) = (z1 ?= z2).
Proof.
  destruct (Z.compare_spec z1 z2) as [->|H0|H0].
  - apply date_compare_refl.
  - apply civil_from_days_lt, H0.
  - rewrite date_compare_antisym, (civil_from_days_lt z2 z1 H0). reflexivity.
Qed.

Lemma civil_from_days_fields (z : Z) :
  let '(y, m, d) := civil_from_days z in 1 <= m <= 12 /\ 1 <= d <= 31.
Proof.
  rewrite civil_from_days_split. cbv zeta.
  assert (Hmod := Z.mod_pos_bound (z + 719468) 146097 ltac:(lia)).
  destruct (year_of_era_spec _ Hmod) as (_ & Hdoy & _).
  assert (Hmd := month_day_spec _ Hdoy).
  destruct (month_day _) as [[shift m] d]. lia.
Qed.

(** The days from 0000-01-01 to 9999-12-31 have a year of four digits. *)
Lemma civil_from_days_year (z : Z) :
  -719528 <= z <= 2932896 ->
  let '(y, m, d) := civil_from_days z in 0 <= y <= 9999.
Proof.
  intros [Hlo Hhi].
  assert (H1 := civil_from_days_compare (-719528) z).
  assert (H2 := civil_from_days_compare z 2932896).
  change (civil_from_days (-719528)) with (0, 1, 1) in H1.
  change (civil_from_days 2932896) with (9999, 12, 31) in H2.
  assert (F := civil_from_days_fields z).
  destruct (civil_from_days z) as [[y m] d].
  unfold date_compare, lexico in H1, H2.
  destruct (Z.compare_spec (-719528) z); destruct (Z.compare_spec z 2932896); try lia;
    destruct (Z.compare_spec 0 y); destruct (Z.compare_spec y 9999); try lia;
    try discriminate.
Qed.

Lemma string_append_assoc (a b c : string) : ((a ++ b) ++ c = a ++ (b ++ c))%string.
Proof. induction a as [|x a IH]; simpl; [reflexivity|]. rewrite IH. reflexivity. Qed.

Lemma digits_append (w : nat) :
  forall (n : Z) (acc : string), digits w n acc = (digits w n "" ++ acc)%string.
Proof.
  induction w as [|w IH]; intros n acc; [reflexivity|].
  rewrite !digits_S, (IH _ (String _ acc)), (IH _ (String _ "")).
  rewrite string_append_assoc. reflexivity.
Qed.

(** The timestamp of a time value with a year of four digits, field after
    field. *)
Lemma toISOString_fields (t : Z) :
  fourDigitYear t ->
  let ms := t mod 86400000 in
  let '(y, m, d) := civil_from_days (t / 86400000) in
  toISOString t
  = digits 4 y (String "-" (digits 2 m (String "-" (digits 2 d (String "T"
      (digits 2 (ms / 3600000) (String ":" (digits 2 (ms / 60000 mod 60) (String ":"
        (digits 2 (ms / 1000 mod 60) (String "." (digits 3 (ms mod 1000) "Z")))))))))))).
Proof.
  intros Ht ms. unfold toISOString. fold ms.
  assert (Hday : -719528 <= t / 86400000 <= 2932896).
  { unfold fourDigitYear in Ht. Z.div_mod_to_equations. lia. }
  assert (Hy := civil_from_days_year _ Hday).
  destruct (civil_from_days (t / 86400000)) as [[y m] d].
  assert (E : (0 <=? y) && (y <=? 9999) = true).
  { apply andb_true_iff. split; apply Z.leb_le; lia. }
  rewrite E.
  rewrite (digits_append 4 y), (digits_append 2 m), (digits_append 2 d),
    (digits_append 2 (ms / 3600000)), (digits_append 2 (ms / 60000 mod 60)),
    (digits_append 2 (ms / 1000 mod 60)), (digits_append 3 (ms mod 1000)).
  reflexivity.
Qed.

Lemma ascii_compare_refl (c : ascii) : Ascii.compare c c = Eq.
Proof. unfold Ascii.compare. apply N.compare_refl. Qed.

Lemma lexico_assoc (a b c : comparison) : lexico (lexico a b) c = lexico a (lexico b c).
Proof. destruct a; reflexivity. Qed.

(** The order of the times of day is the order of their fields. *)
Lemma time_of_day_compare (a b : Z) :
  (a ?= b)
  = lexico (a / 3600000 ?= b / 3600000)
      (lexico (a / 60000 mod 60 ?= b / 60000 mod 60)
         (lexico (a / 1000 mod 60 ?= b / 1000 mod 60) (a mod 1000 ?= b mod 1000))).
Proof.
  rewrite (compare_div_mod a b 1000) by lia.
  rewrite (compare_div_mod (a / 1000) (b / 1000) 60) by lia.
  rewrite !Z.div_div by lia. change (1000 * 60) with 60000.
  rewrite (compare_div_mod (a / 60000) (b / 60000) 60) by lia.
  rewrite !Z.div_div by lia. change (60000 * 60) with 3600000.
  rewrite !lexico_assoc. reflexivity.
Qed.

(** Timestamps with a year of four digits are in the order of their time
    values. *)
Lemma toISOString_compare (t1 t2 : Z) :
  fourDigitYear t1 -> fourDigitYear t2 ->
  String.compare (toISOString t1) (toISOString t2) = (t1 ?= t2).
Proof.
  intros H1 H2.
  assert (F1 := toISOString_fields t1 H1). assert (F2 := toISOString_fields t2 H2).
  assert (G1 := civil_from_days_fields (t1 / 86400000)).
  assert (G2 := civil_from_days_fields (t2 / 86400000)).
  assert (Y1 : -719528 <= t1 / 86400000 <= 2932896).
  { unfold fourDigitYear in H1. Z.div_mod_to_equations. lia. }
  assert (Y2 : -719528 <= t2 / 86400000 <= 2932896).
  { unfold fourDigitYear in H2. Z.div_mod_to_equations. lia. }
  apply civil_from_days_year in Y1, Y2.
  assert (C := civil_from_days_compare (t1 / 86400000) (t2 / 86400000)).
  cbv zeta in F1, F2.
  destruct (civil_from_days (t1 / 86400000)) as [[y1 m1] d1].
  destruct (civil_from_days (t2 / 86400000)) as [[y2 m2] d2].
  rewrite F1, F2. clear F1 F2.
  assert (M1 := Z.mod_pos_bound t1 86400000 ltac:(lia)).
  assert (M2 := Z.mod_pos_bound t2 86400000 ltac:(lia)).
  set (a := t1 mod 86400000) in *. set (b := t2 mod 86400000) in *.
  repeat (rewrite digits_compare
            by (simpl Z.of_nat; simpl Z.pow; Z.div_mod_to_equations; lia);
          rewrite ?string_compare_cons, ?ascii_compare_refl; unfold lexico at 1; fold lexico).
  rewrite (compare_div_mod t1 t2 86400000) by lia. fold a b.
  rewrite <- C, (time_of_day_compare a b). unfold date_compare, lexico. simpl String.compare.
  destruct (y1 ?= y2); try reflexivity.
  destruct (m1 ?= m2); try reflexivity.
  destruct (d1 ?= d2); try reflexivity.
  destruct (a / 3600000 ?= b / 3600000); try reflexivity.
  destruct (a / 60000 mod 60 ?= b / 60000 mod 60); try reflexivity.
  destruct (a / 1000 mod 60 ?= b / 1000 mod 60); try reflexivity.
  destruct (a mod 1000 ?= b mod 1000); reflexivity.
Qed.

Lemma toISOString_leb (t1 t2 : Z) :
  fourDigitYear t1 -> fourDigitYear t2 ->
  (toISOString t1 <=? toISOString t2)%string = (t1 <=? t2).
Proof.
  intros H1 H2. unfold String.leb, Z.leb. rewrite toISOString_compare by assumption.
  reflexivity.
Qed.

(** On ISO timestamps a nearest preceding point in the order of the strings
    is one in the order of the instants: not after the instant [u], and not
    before any point that is not after [u]. *)
Lemma nearestPreceding_chronological (tl : list TimelinePoint) (u : Z)
    (prev : TimelinePoint) (tp : Z) :
  fourDigitYear u -> datedAt prev tp ->
  nearestPreceding tl (toISOString u) prev ->
  tp <= u /\
  forall q tq, In q tl -> datedAt q tq -> tq <= u -> tq <= tp.
Proof.
  intros Hu [Hp Ep] (Hin & Hle & Hmax). rewrite Ep in Hle.
  rewrite toISOString_leb in Hle by assumption. apply Z.leb_le in Hle.
  split; [exact Hle|]. intros q tq Hq [Hr Eq] Hqu.
  assert (H0 : (date q <=? toISOString u)%string = true).
  { rewrite Eq, toISOString_leb by assumption. apply Z.leb_le, Hqu. }
  specialize (Hmax q Hq H0). rewrite Eq, Ep, toISOString_leb in Hmax by assumption.
  apply Z.leb_le, Hmax.
Qed.

End TimestampOrder.

(* ================================================================== *)
(** * The structure of the replay *)
(* ================================================================== *)

Section ReplayStructure.

Context `{host : Host}.

Ltac by_event_type ev :=
  destruct (is_type (nth_error ev 3) 0) eqn:?;
  [|destruct (is_type (nth_error ev 3) 1) eqn:?;
  [|destruct (is_type (nth_error ev 3) 2) eqn:?;
  [|destruct (is_type (nth_error ev 3) 3) eqn:?;
  [|destruct (is_type (nth_error ev 3) 4) eqn:?;
  [|destruct (is_type (nth_error ev 3) 5) eqn:?;
  [|destruct (is_type (nth_error ev 3) 6) eqn:?]]]]]].

Lemma replay_from_replayed (events : list StakerEvent) (st : Replay) :
  fold_left replayEvent (replayed events) st = fold_left replayEvent events st.
Proof.
  revert st. induction events as [|ev events IH]; intro st; [reflexivity|].
  unfold replayed. simpl filter.
  destruct (Nat.lt_ge_cases (List.length ev) 11) as [H0|H0].
  - simpl fold_left. rewrite replayEvent_short by exact H0.
    apply Nat.ltb_lt in H0. rewrite H0. apply IH.
  - assert (E := H0). apply Nat.ltb_ge in E. rewrite E. simpl. apply IH.
Qed.

(** The operation of an event does not depend on the state of the replay. *)
Lemma replayEvent_operation_alone (st : Replay) (ev : StakerEvent) :
  operations (replayEvent st ev)
  = (operations st ++ operations (replayEvent Replay_start ev))%list.
Proof.
  destruct (Nat.lt_ge_cases (List.length ev) 11) as [H0|H0].
  - rewrite !replayEvent_short by exact H0. symmetry. apply app_nil_r.
  - unfold replayEvent. apply Nat.ltb_ge in H0. rewrite H0.
    destruct (event_type _) as [type_id type_label].
    by_event_type ev; reflexivity.
Qed.

Lemma replay_operations_from (events : list StakerEvent) (st : Replay) :
  operations (fold_left replayEvent events st)
  = (operations st
     ++ flat_map (fun event => operations (replayEvent Replay_start event)) events)%list.
Proof.
  revert st. induction events as [|ev events IH]; intro st; simpl.
  - symmetry. apply app_nil_r.
  - rewrite IH, replayEvent_operation_alone, <- app_assoc. reflexivity.
Qed.

Lemma replay_op_dates_from (events : list StakerEvent) (st : Replay) :
  map op_date (operations (fold_left replayEvent events st))
  = (map op_date (operations st) ++ map timestamp (replayed events))%list.
Proof.
  revert st. induction events as [|ev events IH]; intro st; simpl.
  - symmetry. apply app_nil_r.
  - rewrite IH. unfold replayed. simpl filter.
    destruct (Nat.lt_ge_cases (List.length ev) 11) as [H0|H0].
    + rewrite replayEvent_short by exact H0.
      apply Nat.ltb_lt in H0. rewrite H0. reflexivity.
    + destruct (replayEvent_operations st ev H0) as (op & -> & Hop).
      apply Nat.ltb_ge in H0. rewrite H0. simpl.
      rewrite map_app, <- app_assoc. simpl. rewrite Hop. reflexivity.
Qed.

Lemma replay_op_signatures_from (events : list StakerEvent) (st : Replay) :
  map op_signature (operations (fold_left replayEvent events st))
  = (map op_signature (operations st)
     ++ map (fun event => str_cell event 0) (replayed events))%list.
Proof.
  revert st. induction events as [|ev events IH]; intro st; simpl.
  - symmetry. apply app_nil_r.
  - rewrite IH. unfold replayed. simpl filter.
    destruct (Nat.lt_ge_cases (List.length ev) 11) as [H0|H0].
    + rewrite replayEvent_short by exact H0.
      apply Nat.ltb_lt in H0. rewrite H0. reflexivity.
    + assert (E : exists op, operations (replayEvent st ev) = (operations st ++ [op])%list
                             /\ op_signature op = str_cell ev 0).
      { unfold replayEvent. assert (E := H0). apply Nat.ltb_ge in E. rewrite E.
        destruct (event_type _) as [type_id type_label].
        by_event_type ev; eexists; split; reflexivity. }
      destruct E as (op & -> & Hop).
      apply Nat.ltb_ge in H0. rewrite H0. simpl.
      rewrite map_app, <- app_assoc. simpl. rewrite Hop. reflexivity.
Qed.

(** The replay only appends to the timeline. *)
Lemma replay_timeline_from (events : list StakerEvent) (st : Replay) :
  exists later,
    timeline (fold_left replayEvent events st) = (timeline st ++ later)%list.
Proof.
  revert st. induction events as [|ev events IH]; intro st; simpl.
  - exists []. symmetry. apply app_nil_r.
  - destruct (IH (replayEvent st ev)) as [later ->].
    destruct (Nat.lt_ge_cases (List.length ev) 11) as [H0|H0].
    + rewrite replayEvent_short by exact H0. exists later. reflexivity.
    + rewrite replayEvent_timeline by exact H0. eexists.
      rewrite <- app_assoc. reflexivity.
Qed.

Lemma replay_app (before after : list StakerEvent) :
  replay (before ++ after) = fold_left replayEvent after (replay before).
Proof. unfold replay. apply fold_left_app. Qed.

Lemma replay_timeline_length (events : list StakerEvent) :
  List.length (timeline (replay events)) = List.length (replayed events).
Proof.
  rewrite <- (length_map date), replay_dates, length_map. reflexivity.
Qed.





End ReplayStructure.

(* ================================================================== *)
(** * More facts about the schedule array *)
(* ================================================================== *)

Section ScheduleInvariants.

Context `{host : Host}.

Lemma eqb_sym (a b : num) : eqb a b = eqb b a.
Proof.
  destruct a, b; simpl; try reflexivity.
  destruct (Qeq_bool q q0) eqn:E1, (Qeq_bool q0 q) eqn:E2; try reflexivity.
  - apply Qeq_bool_iff in E1. apply Qeq_bool_false in E2. exfalso. apply E2.
    symmetry. exact E1.
  - apply Qeq_bool_iff in E2. apply Qeq_bool_false in E1. exfalso. apply E1.
    symmetry. exact E2.
Qed.

Lemma eqb_trans (a b c : num) : eqb a b = true -> eqb b c = true -> eqb a c = true.
Proof.
  destruct a, b, c; simpl; try discriminate; try reflexivity.
  intros H1 H2. apply Qeq_bool_iff in H1, H2. apply Qeq_bool_iff.
  rewrite H1. exact H2.
Qed.

Lemma findIndex_found {A : Type} (f : A -> bool) (l : list A) (i : nat) :
  findIndex f l = Some i -> exists x, nth_error l i = Some x /\ f x = true.
Proof.
  revert i. induction l as [|y l IH]; intros i Hi; simpl in Hi; [discriminate|].
  destruct (f y) eqn:Ey.
  - injection Hi as <-. exists y. auto.
  - destruct (findIndex f l) as [j|]; [|discriminate].
    injection Hi as <-. apply (IH j). reflexivity.
Qed.

Lemma findIndex_missing {A : Type} (f : A -> bool) (l : list A) :
  findIndex f l = None -> forall x, In x l -> f x = false.
Proof.
  induction l as [|y l IH]; intros Hi x Hx; simpl in *; [contradiction|].
  destruct (f y) eqn:Ey; [discriminate|].
  destruct (findIndex f l); [discriminate|].
  destruct Hx as [<-|Hx]; [exact Ey|]. apply IH; auto.
Qed.

(** The set_vesting branch keeps the locked amounts of the schedules
    distinct. *)
Lemma setVesting_distinct (d : Date) (a c p r : num) (l : list VestingSchedule) :
  distinctAmounts l -> distinctAmounts (setVesting d a c p r l).
Proof.
  intro Hl. unfold setVesting.
  destruct (gtb a zero && gtb p zero && gtb r zero); [|exact Hl].
  cbv zeta.
  set (new := {| startTime := d; lockedTuna := a; cliffHours := c;
                 unlockPeriodHours := p; unlockRateTuna := r |}).
  destruct (findIndex _ l) as [k|] eqn:Ek.
  - apply findIndex_found in Ek. destruct Ek as (old & Hold & Ea).
    assert (Hk : (k < List.length l)%nat) by (apply nth_error_Some; congruence).
    intros i j si sj Hi Hj E.
    destruct (Nat.eq_dec i k) as [->|Hik], (Nat.eq_dec j k) as [->|Hjk];
      try reflexivity.
    + rewrite assign_same in Hi by exact Hk. injection Hi as <-.
      rewrite assign_other in Hj by exact Hjk. simpl in E.
      apply (Hl k j old sj Hold Hj). apply (eqb_trans _ a); assumption.
    + rewrite assign_same in Hj by exact Hk. injection Hj as <-.
      rewrite assign_other in Hi by exact Hik. simpl in E.
      apply (Hl i k si old Hi Hold). apply (eqb_trans _ a); [exact E|].
      rewrite eqb_sym. exact Ea.
    + rewrite assign_other in Hi by exact Hik.
      rewrite assign_other in Hj by exact Hjk.
      apply (Hl i j si sj Hi Hj E).
  - assert (Hnone := findIndex_missing _ l Ek).
    intros i j si sj Hi Hj E.
    destruct (Nat.lt_ge_cases i (List.length l)) as [Li|Li],
             (Nat.lt_ge_cases j (List.length l)) as [Lj|Lj].
    + rewrite nth_error_app1 in Hi, Hj by assumption. apply (Hl i j si sj Hi Hj E).
    + rewrite nth_error_app1 in Hi by assumption.
      rewrite nth_error_app2 in Hj by assumption.
      destruct (j - List.length l)%nat as [|n]; [|destruct n; discriminate].
      injection Hj as <-. simpl in E.
      rewrite (Hnone si) in E; [discriminate|]. eapply nth_error_In, Hi.
    + rewrite nth_error_app2 in Hi by assumption.
      rewrite nth_error_app1 in Hj by assumption.
      destruct (i - List.length l)%nat as [|n]; [|destruct n; discriminate].
      injection Hi as <-. simpl in E. rewrite eqb_sym in E.
      rewrite (Hnone sj) in E; [discriminate|]. eapply nth_error_In, Hj.
    + rewrite nth_error_app2 in Hi, Hj by assumption.
      destruct (i - List.length l)%nat as [|n] eqn:Ei; [|destruct n; discriminate].
      destruct (j - List.length l)%nat as [|m] eqn:Ej; [|destruct m; discriminate].
      lia.
Qed.

Lemma replayEvent_distinct (st : Replay) (ev : StakerEvent) :
  distinctAmounts (vestingSchedules st) ->
  distinctAmounts (vestingSchedules (replayEvent st ev)).
Proof.
  intro Hst. destruct (Nat.lt_ge_cases (List.length ev) 11) as [H0|H0].
  - rewrite replayEvent_short by exact H0. exact Hst.
  - destruct (is_type (typeOf ev) 6) eqn:E6.
    + destruct (replayEvent_set_vesting st ev H0 E6) as (_ & _ & _ & ->).
      apply setVesting_distinct, Hst.
    + destruct (replayEvent_deltas st ev H0 E6) as (_ & _ & _ & ->). exact Hst.
Qed.

Lemma replay_distinct (events : list StakerEvent) (st : Replay) :
  distinctAmounts (vestingSchedules st) ->
  distinctAmounts (vestingSchedules (fold_left replayEvent events st)).
Proof.
  revert st. induction events as [|ev events IH]; intros st Hst; simpl.
  - exact Hst.
  - apply IH, replayEvent_distinct, Hst.
Qed.

(** The amount of the operation of one event. *)
Lemma replayEvent_amount (ev : StakerEvent) :
  Forall (fun op =>
            op_type op = "compound"%string \/ op_type op = "claim"%string \/
            (zero <= op_amount op)%num)
         (operations (replayEvent Replay_start ev)).
Proof.
  destruct (Nat.lt_ge_cases (List.length ev) 11) as [H0|H0].
  - rewrite replayEvent_short by exact H0. constructor.
  - unfold replayEvent. apply Nat.ltb_ge in H0. rewrite H0.
    destruct (num_cell_or0_finite ev 5) as [x ->].
    destruct (num_cell_or0_finite ev 6) as [y ->].
    assert (Habs : forall q, (zero <= round6 (abs (Fin q)))%num).
    { intro q. rewrite abs_Fin, round6_Fin. apply (le_Fin 0).
      apply Qround6_nonneg, Qabs_nonneg. }
    generalize (nth_error ev 3). intro o.
    unfold event_type. simpl find.
    destruct (is_type o 0); [|destruct (is_type o 1); [|destruct (is_type o 2);
      [|destruct (is_type o 3); [|destruct (is_type o 4); [|destruct (is_type o 5);
      [|destruct (is_type o 6)]]]]]];
      cbn [operations snd app Replay_start];
      (apply Forall_cons; [|apply Forall_nil]); cbn [op_type op_amount];
      lazymatch goal with
      | |- _ \/ _ \/ (zero <= round6 (abs (Fin _)))%num => right; right; apply Habs
      | |- _ \/ _ \/ (zero <= round6 zero)%num =>
          right; right; apply round6_nonnegative; reflexivity
      | |- "compound"%string = _ \/ _ => left; reflexivity
      | |- _ => right; left; reflexivity
      end.
Qed.

(** At an invalid date the locked amount of a schedule is not a number. *)
Lemma calculateLockedAmount_invalid (s : VestingSchedule) :
  calculateLockedAmount s InvalidDate = NaN.
Proof.
  unfold calculateLockedAmount. simpl getTime.
  destruct (lockedTuna s); reflexivity.
Qed.

Lemma sumLocked_NaN (schedules : list VestingSchedule) (time : Date) :
  fold_left (fun total schedule => (total + calculateLockedAmount schedule time)%num)
            schedules NaN = NaN.
Proof.
  induction schedules as [|s schedules IH]; simpl; [reflexivity|]. exact IH.
Qed.

Lemma sumLocked_invalid (schedules : list VestingSchedule) :
  schedules <> [] -> sumLocked schedules InvalidDate = NaN.
Proof.
  destruct schedules as [|s schedules]; [contradiction|]. intros _.
  unfold sumLocked. simpl. rewrite calculateLockedAmount_invalid.
  apply sumLocked_NaN.
Qed.

End ScheduleInvariants.

(* ================================================================== *)
(** * More facts about the vesting model *)
(* ================================================================== *)

Section VestingSteps.

Open Scope Q_scope.






End VestingSteps.

(* ================================================================== *)
(** * The unlock times and the final sort *)
(* ================================================================== *)

Section UnlockTimes.

Context `{host : Host}.

Open Scope Q_scope.




Lemma unlockTimesOf_not_after (s : VestingSchedule) (cacheEndTime : Date) (times : list Z) :
  unlockTimesOf s cacheEndTime = Some times ->
  match cacheEndTime with
  | DateAt e => Forall (fun u => (u <= e)%Z) times
  | InvalidDate => times = []
  end.
Proof.
  unfold unlockTimesOf. destruct (iterations _) as [count|]; [|discriminate].
  simpl bind. intros [= <-]. destruct cacheEndTime as [|e].
  - induction (seq 0 count) as [|i l IH]; [reflexivity|]. cbn [flat_map].
    rewrite IH. destruct (unlockTimeAt _ _ _ i); reflexivity.
  - apply Forall_flat_map. apply Forall_forall. intros i _.
    destruct (unlockTimeAt _ _ _ i) as [|t]; simpl getTime.
    + constructor.
    + unfold ofZ. rewrite leb_Fin. destruct (Qle_bool _ _) eqn:E; constructor.
      * apply Qle_bool_iff in E. rewrite <- Zle_Qle in E. exact E.
      * constructor.
Qed.

End UnlockTimes.

Section FinalSort.

Context `{host : Host}.

Hypothesis Horder : orderedCompare localeCompare.

Lemma insertSorted_sorted (p : TimelinePoint) (l : list TimelinePoint) :
  StronglySorted notAfter l -> StronglySorted notAfter (insertSorted p l).
Proof.
  destruct Horder as [Htotal Htrans].
  induction l as [|q l IH]; intro Hl; simpl.
  - constructor; constructor.
  - apply StronglySorted_inv in Hl. destruct Hl as [Hl Hq].
    destruct (localeCompare (date p) (date q)) eqn:E.
    + constructor; [constructor; assumption|]. constructor.
      * unfold notAfter. rewrite E. discriminate.
      * rewrite Forall_forall in *. intros x Hx. unfold notAfter in *.
        apply (Htrans _ (date q)); [rewrite E; discriminate|apply Hq, Hx].
    + constructor; [constructor; assumption|]. constructor.
      * unfold notAfter. rewrite E. discriminate.
      * rewrite Forall_forall in *. intros x Hx. unfold notAfter in *.
        apply (Htrans _ (date q)); [rewrite E; discriminate|apply Hq, Hx].
    + constructor; [apply IH, Hl|].
      eapply Permutation_Forall; [symmetry; apply insertSorted_perm|].
      constructor; [apply Htotal, E|exact Hq].
Qed.

Lemma sortTimeline_sorted (l : list TimelinePoint) :
  StronglySorted notAfter (sortTimeline l).
Proof.
  induction l as [|p l IH]; simpl; [constructor|].
  apply insertSorted_sorted, IH.
Qed.

End FinalSort.

Section ReachesCacheEnd.

Context `{host : Host}.

Open Scope string_scope.

Lemma addFinalPoint_reaches (schedules : list VestingSchedule) (cacheEndTimestamp : string)
    (tl : list TimelinePoint) :
  tl <> [] ->
  exists p, In p (addFinalPoint schedules cacheEndTimestamp tl)
            /\ (cacheEndTimestamp <=? date p) = true.
Proof.
  destruct tl as [|first rest]; [contradiction|]. intros _. unfold addFinalPoint.
  destruct (date (latestPoint first rest) <? cacheEndTimestamp) eqn:E.
  - eexists. split; [apply in_or_app; right; left; reflexivity|].
    simpl. apply string_leb_refl.
  - exists (latestPoint first rest). split; [apply latestPoint_In|].
    rewrite string_ltb_leb in E. apply negb_false_iff in E. exact E.
Qed.

Lemma extendToCacheEnd_reaches (cacheEndDate : string) (tl : list TimelinePoint) :
  tl <> [] ->
  exists p, In p (extendToCacheEnd cacheEndDate tl)
            /\ (cacheEndDate ++ "T23:59:59Z" <=? date p) = true.
Proof.
  destruct tl as [|first rest]; [contradiction|]. intros _. unfold extendToCacheEnd.
  destruct (date (last (first :: rest) first) <? cacheEndDate ++ "T23:59:59Z") eqn:E.
  - eexists. split; [apply in_or_app; right; left; reflexivity|].
    simpl. apply string_leb_refl.
  - exists (last (first :: rest) first). split; [apply last_In|].
    rewrite string_ltb_leb in E. apply negb_false_iff in E. exact E.
Qed.

End ReachesCacheEnd.

(* ================================================================== *)
(** * The anatomy of a lookup *)
(* ================================================================== *)

Section LookupAnatomy.

Context `{host : Host}.



(** What a successful lookup is made of. *)
Lemma parseWalletTimeline_found (walletAddress wallet : string) (cache : StakerCache)
    (range : string * string) (tl : list TimelinePoint) (ops : list Operation)
    (summary : WalletSummary) :
  parseWalletTimeline walletAddress cache = Some (Found wallet range tl ops summary) ->
  let st := replay (walletEventsOf walletAddress cache) in
  exists addrData first rest,
    entryOf walletAddress cache = Some addrData /\ indexed addrData /\
    timeline st = first :: rest /\
    extendTimeline (cacheEndOf cache) (vestingSchedules st) (first :: rest) = Some tl /\
    ops = operations st /\
    summary = summarize addrData first tl ops /\
    range = (date (hd first tl), date (last tl first)) /\
    wallet = walletAddress.
Proof.
  unfold parseWalletTimeline, buildBalanceTimeline.
  fold (entryOf walletAddress cache) (walletEventsOf walletAddress cache) (cacheEndOf cache).
  destruct (entryOf walletAddress cache) as [addrData|]; [|discriminate].
  destruct (first_event addrData) eqn:E1; [|discriminate].
  destruct (last_event addrData) eqn:E2; [|discriminate].
  destruct (walletEventsOf walletAddress cache) as [|e walletEvents]; [discriminate|].
  destruct (timeline (replay (e :: walletEvents))) as [|first rest]; [discriminate|].
  destruct (extendTimeline _ _ _) as [final|] eqn:E; [|discriminate].
  simpl bind. intros [= <- <- <- <- <-]. cbv zeta.
  exists addrData, first, rest. repeat split; try reflexivity; try congruence.
Qed.


Lemma last_app_one {A : Type} (l : list A) (x d : A) : last (l ++ [x]) d = x.
Proof.
  induction l as [|y l IH]; [reflexivity|]. simpl.
  destruct (l ++ [x])%list eqn:E; [destruct l; discriminate|]. exact IH.
Qed.

Lemma last_map {A B : Type} (f : A -> B) (l : list A) (d : A) :
  last (map f l) (f d) = f (last l d).
Proof.
  induction l as [|y l IH]; [reflexivity|]. simpl.
  destruct l as [|z l]; [reflexivity|]. exact IH.
Qed.

Lemma last_default {A : Type} (x : A) (l : list A) (d d' : A) :
  last (x :: l) d = last (x :: l) d'.
Proof.
  revert x. induction l as [|y l IH]; intro x; [reflexivity|]. exact (IH y).
Qed.

Lemma rev_head_last {A : Type} (l : list A) (d : A) :
  match rev l with x :: _ => x | [] => d end = last l d.
Proof.
  induction l as [|y l IH] using rev_ind; [reflexivity|].
  rewrite rev_app_distr, last_app_one. reflexivity.
Qed.

End LookupAnatomy.

(* ================================================================== *)
(** * Wallets without vesting *)
(* ================================================================== *)

Section WithoutVesting.

Context `{host : Host}.

Lemma pointAfter_nothingLocked (st : Replay) (time : string) :
  vestingSchedules st = [] -> nothingLocked (pointAfter st time).
Proof.
  intro Hs. unfold nothingLocked, pointAfter. simpl. rewrite Hs.
  change (sumLocked [] (Date_ofString time)) with zero.
  eapply same_trans; [apply round6_min|].
  apply min_same; [|apply same_refl].
  vm_compute. reflexivity.
Qed.

Lemma replay_without_vesting (events : list StakerEvent) (st : Replay) :
  forallb movesBalances (replayed events) = true ->
  vestingSchedules st = [] -> Forall nothingLocked (timeline st) ->
  vestingSchedules (fold_left replayEvent events st) = [] /\
  Forall nothingLocked (timeline (fold_left replayEvent events st)).
Proof.
  revert st. induction events as [|ev events IH]; intros st Hev Hs Htl; [auto|].
  simpl fold_left. unfold replayed in Hev. simpl filter in Hev.
  destruct (Nat.lt_ge_cases (List.length ev) 11) as [H0|H0].
  - rewrite replayEvent_short by exact H0.
    apply Nat.ltb_lt in H0. rewrite H0 in Hev. apply IH; assumption.
  - assert (E := H0). apply Nat.ltb_ge in E. rewrite E in Hev. simpl in Hev.
    apply andb_true_iff in Hev. destruct Hev as [H6 Hev].
    unfold movesBalances in H6. apply negb_true_iff in H6.
    destruct (replayEvent_deltas st ev H0 H6) as (_ & _ & _ & Hs').
    rewrite Hs in Hs'.
    apply IH; [exact Hev|exact Hs'|].
    rewrite replayEvent_timeline by exact H0.
    apply Forall_app. split; [exact Htl|]. constructor; [|constructor].
    apply pointAfter_nothingLocked, Hs'.
Qed.

Lemma extendToCacheEnd_nothingLocked (cacheEndDate : string) (tl : list TimelinePoint) :
  Forall nothingLocked tl -> Forall nothingLocked (extendToCacheEnd cacheEndDate tl).
Proof.
  intro Htl. unfold extendToCacheEnd.
  destruct tl as [|first rest]; [exact Htl|].
  destruct (_ <? _)%string; [|exact Htl].
  apply Forall_app. split; [exact Htl|]. constructor; [|constructor].
  rewrite Forall_forall in Htl. apply (Htl (last (first :: rest) first)), last_In.
Qed.

Lemma nothingLocked_not_positive (p : TimelinePoint) :
  nothingLocked p -> gtb (locked p) zero = false.
Proof.
  unfold nothingLocked, gtb. change zero with (Fin 0).
  intro E. destruct (staked p) as [| | |s].
  - change (min (Fin 0) NaN) with NaN in E.
    destruct (locked p); simpl in E; try contradiction. reflexivity.
  - change (min (Fin 0) PInf) with (Fin 0) in E.
    destruct (locked p) as [| | |l]; simpl in E; try contradiction.
    rewrite ltb_Fin. apply Qltb_ge. rewrite E. lra.
  - change (min (Fin 0) NInf) with NInf in E.
    destruct (locked p); simpl in E; try contradiction. reflexivity.
  - rewrite min_Fin in E.
    destruct (locked p) as [| | |l]; simpl in E; try contradiction.
    rewrite ltb_Fin. apply Qltb_ge. rewrite E.
    destruct (Qltb s 0) eqn:Es; [|lra]. apply Qltb_lt in Es. lra.
Qed.

(** Without schedule the extension keeps every accumulated point at its
    index. *)
Lemma extendTimeline_without_vesting (cacheEndDate : option string)
    (tl final : list TimelinePoint) :
  extendTimeline cacheEndDate [] tl = Some final ->
  (exists added, final = tl ++ added)%list /\
  (Forall nothingLocked tl -> Forall nothingLocked final).
Proof.
  unfold extendTimeline. destruct (truthy_string cacheEndDate) as [day|]; intros [= <-].
  - split; [apply extendToCacheEnd_appends|apply extendToCacheEnd_nothingLocked].
  - split; [exists []; symmetry; apply app_nil_r|auto].
Qed.

End WithoutVesting.

(* ================================================================== *)
(** * Facts about the chart *)
(* ================================================================== *)

Section ChartFacts.

Lemma max_Fin (x y : Q) : max (Fin x) (Fin y) = Fin (if Qltb x y then y else x).
Proof. unfold max. simpl. rewrite ltb_Fin. destruct (Qltb x y); reflexivity. Qed.


End ChartFacts.

(* ================================================================== *)
(** * Facts about the grouping of the markers *)
(* ================================================================== *)

Section MarkerGroups.

Variable timeline : list TimelinePoint.

Lemma property_addMarker (type : string) (op : Operation) (y : num)
    (groups : list (string * OperationGroup)) :
  property type (addMarker op y groups)
  = if String.eqb (op_type op) type
    then Some (pushMarker op y match property type groups with
                               | Some group => group
                               | None => emptyGroup
                               end)
    else property type groups.
Proof.
  induction groups as [|[k g] rest IH]; simpl.
  - reflexivity.
  - destruct (String.eqb k (op_type op)) eqn:Ek; simpl.
    + apply String.eqb_eq in Ek. subst k.
      destruct (String.eqb (op_type op) type); reflexivity.
    + rewrite IH. destruct (String.eqb k type) eqn:Et; [|reflexivity].
      apply String.eqb_eq in Et. subst k. rewrite String.eqb_sym, Ek. reflexivity.
Qed.

Lemma keys_addMarker (op : Operation) (y : num) (groups : list (string * OperationGroup))
    (key : string) :
  In key (map fst (addMarker op y groups)) -> key = op_type op \/ In key (map fst groups).
Proof.
  induction groups as [|[k g] rest IH]; simpl.
  - intros [<-|[]]. left. reflexivity.
  - destruct (String.eqb k (op_type op)); simpl.
    + intros [<-|H0]; auto.
    + intros [<-|H0]; auto. destruct (IH H0); auto.
Qed.

Lemma NoDup_addMarker (op : Operation) (y : num) (groups : list (string * OperationGroup)) :
  NoDup (map fst groups) -> NoDup (map fst (addMarker op y groups)).
Proof.
  induction groups as [|[k g] rest IH]; simpl; intro Hnd.
  - constructor; [intros []|constructor].
  - apply NoDup_cons_iff in Hnd. destruct Hnd as [Hk Hrest].
    destruct (String.eqb k (op_type op)) eqn:Ek; simpl.
    + constructor; assumption.
    + constructor; [|apply IH, Hrest].
      intro Hin. apply keys_addMarker in Hin. destruct Hin as [->|Hin]; [|contradiction].
      rewrite String.eqb_refl in Ek. discriminate.
Qed.

Lemma NoDup_groupOperations (operations : list Operation) (idx : nat)
    (groups : list (string * OperationGroup)) :
  NoDup (map fst groups) -> NoDup (map fst (groupOperations timeline operations idx groups)).
Proof.
  revert idx groups. induction operations as [|op rest IH]; intros idx groups Hnd; simpl.
  - exact Hnd.
  - apply IH, NoDup_addMarker, Hnd.
Qed.

Lemma markersOf_none (type : string) (entries : list (nat * Operation)) :
  existsb (fun entry => String.eqb (op_type (snd entry)) type) entries = false ->
  markersOf type timeline entries = emptyGroup.
Proof.
  intro Hnone. unfold markersOf.
  assert (E : filter (fun entry => String.eqb (op_type (snd entry)) type) entries = []).
  { induction entries as [|e l IH]; [reflexivity|]. simpl in *.
    apply orb_false_iff in Hnone. destruct Hnone as [-> Hl]. apply IH, Hl. }
  rewrite E. reflexivity.
Qed.

Lemma groupFor_step (type : string) (done : list (nat * Operation)) (idx : nat)
    (op : Operation) :
  groupFor type timeline (done ++ [(idx, op)])
  = if String.eqb (op_type op) type
    then Some (pushMarker op (baseY timeline idx * typeOffset (op_type op))%num
                 match groupFor type timeline done with
                 | Some group => group
                 | None => emptyGroup
                 end)
    else groupFor type timeline done.
Proof.
  unfold groupFor. rewrite existsb_app. simpl existsb. rewrite orb_false_r.
  unfold markersOf. rewrite filter_app. simpl filter.
  destruct (String.eqb (op_type op) type) eqn:Et.
  - rewrite orb_true_r, !map_app. simpl.
    destruct (existsb _ done) eqn:Ed; [reflexivity|].
    assert (E := markersOf_none type done Ed). unfold markersOf in E.
    injection E as -> -> -> ->. reflexivity.
  - rewrite orb_false_r, app_nil_r. reflexivity.
Qed.

Lemma groupOperations_groups (operations : list Operation) (idx : nat)
    (groups : list (string * OperationGroup)) (done : list (nat * Operation)) :
  (forall type, property type groups = groupFor type timeline done) ->
  forall type,
    property type (groupOperations timeline operations idx groups)
    = groupFor type timeline (done ++ indexedFrom idx operations).
Proof.
  revert idx groups done.
  induction operations as [|op rest IH]; intros idx groups done Hdone type.
  - simpl. unfold indexedFrom. simpl. rewrite app_nil_r. apply Hdone.
  - simpl groupOperations.
    change (indexedFrom idx (op :: rest)) with ((idx, op) :: indexedFrom (S idx) rest).
    change ((idx, op) :: indexedFrom (S idx) rest)
      with ([(idx, op)] ++ indexedFrom (S idx) rest)%list.
    rewrite app_assoc. apply IH. intro type'.
    rewrite property_addMarker, groupFor_step, Hdone. reflexivity.
Qed.

End MarkerGroups.

(* ================================================================== *)
(** * Facts about substrings *)
(* ================================================================== *)

Section Substrings.

Open Scope string_scope.
Open Scope nat_scope.

Lemma substring_length (s : string) (n m : nat) :
  n + m <= String.length s -> String.length (substring n m s) = m.
Proof.
  revert n m. induction s as [|a s IH]; intros n m H0; simpl in H0.
  - assert (n = 0) by lia. assert (m = 0) by lia. subst. reflexivity.
  - destruct n as [|n]; simpl.
    + destruct m as [|m]; [reflexivity|]. simpl. rewrite (IH 0 m) by lia. reflexivity.
    + apply IH. lia.
Qed.

Lemma substring_split (s : string) (n m1 m2 : nat) :
  substring n (m1 + m2) s = substring n m1 s ++ substring (n + m1) m2 s.
Proof.
  revert n m1. induction s as [|a s IH]; intros n m1.
  - destruct n, m1, m2; reflexivity.
  - destruct n as [|n].
    + destruct m1 as [|m1]; [reflexivity|].
      simpl. rewrite (IH 0 m1). reflexivity.
    + simpl. apply IH.
Qed.

Lemma substring_all (s : string) : substring 0 (String.length s) s = s.
Proof.
  induction s as [|a s IH]; [reflexivity|]. simpl. rewrite IH. reflexivity.
Qed.

End Substrings.

(* ================================================================== *)
(** * The error of the rounding and the number of unlock times *)
(* ================================================================== *)

Section RoundingError.

Open Scope Q_scope.


End RoundingError.

Section UnlockCount.

Lemma flat_map_length_le {A B : Type} (f : A -> list B) (l : list A) :
  (forall x, List.length (f x) <= 1)%nat ->
  (List.length (flat_map f l) <= List.length l)%nat.
Proof.
  intro Hf. induction l as [|x l IH]; simpl; [lia|].
  rewrite length_app. specialize (Hf x). lia.
Qed.

Lemma iterations_count (q : Q) (count : nat) :
  (0 <= q)%Q -> iterations (ceil (Fin q)) = Some count ->
  Z.of_nat count = Qceiling q + 1.
Proof.
  intro Hq. unfold iterations, ceil, ofZ.
  assert (Hn : 0 <= Qceiling q).
  { assert (H0 := Qle_ceiling q).
    assert (H1 : (inject_Z 0 <= inject_Z (Qceiling q))%Q) by (change (inject_Z 0) with 0%Q; lra).
    rewrite <- Zle_Qle in H1. exact H1. }
  revert Hn. generalize (Qceiling q). intros n Hn.
  destruct (Qltb (inject_Z n) 0) eqn:E; intros [= <-].
  - apply Qltb_lt in E. change 0%Q with (inject_Z 0) in E. rewrite <- Zlt_Qlt in E. lia.
  - rewrite Z.div_1_r. lia.
Qed.

End UnlockCount.

(* ================================================================== *)
(** * Properties of the engine *)
(* ================================================================== *)

(** ** Invariants of the timeline points *)




(** ** The accumulator *)

(** C2, as the code has it.  For every event of at least 11 cells whose
    type is not set_vesting, the ordinals 0 to 5 and every unknown one, the
    accumulator adds [d_stake] to the running staked total and [d_pending] to
    the running unstaked total; a set_vesting event, whose [d_stake] cell
    carries the amount to lock, leaves both totals unchanged. *)
Theorem deltas_applied_unless_set_vesting `{host : Host}
    (st : Replay) (event : StakerEvent) :
  (11 <= List.length event)%nat ->
  let st' := replayEvent st event in
  (is_type (typeOf event) 6 = false ->
   staked_total st' = (staked_total st + d_stake event)%num /\
   unstaked_total st' = (unstaked_total st + d_pending event)%num) /\
  (is_type (typeOf event) 6 = true ->
   staked_total st' = staked_total st /\
   unstaked_total st' = unstaked_total st).
Proof.
  intros Hlen st'. subst st'. split; intro H6.
  - destruct (replayEvent_deltas st event Hlen H6) as (H1 & H2 & _). auto.
  - destruct (replayEvent_set_vesting st event Hlen H6) as (H1 & H2 & _). auto.
Qed.

Lemma deltas_applied_unless_set_vesting_witness :
  (11 <= List.length unstake5)%nat /\
  is_type (typeOf unstake5) 6 = false /\
  staked_total (@replayEvent reference_host Replay_start unstake5)
  = (staked_total Replay_start + d_stake unstake5)%num /\
  (11 <= List.length vest250)%nat /\
  is_type (typeOf vest250) 6 = true /\
  staked_total (@replayEvent reference_host Replay_start vest250)
  = staked_total Replay_start.
Proof.
  assert (L1 : (11 <= List.length unstake5)%nat) by (simpl; lia).
  assert (L2 : (11 <= List.length vest250)%nat) by (simpl; lia).
  split; [exact L1|]. split; [reflexivity|]. split.
  - apply (@deltas_applied_unless_set_vesting reference_host Replay_start unstake5 L1).
    reflexivity.
  - split; [exact L2|]. split; [reflexivity|].
    apply (@deltas_applied_unless_set_vesting reference_host Replay_start vest250 L2).
    reflexivity.
Defined.

(** C2 refuted: a set_vesting event of 15 cells with [d_stake] = 250 does
    not add its [d_stake] to the running staked total. *)
Lemma set_vesting_adds_no_stake :
  let st' := @replayEvent reference_host Replay_start vest250 in
  (11 <= List.length vest250)%nat /\
  d_stake vest250 = Fin 250 /\
  staked_total st' = zero /\
  ~ (staked_total st' == staked_total Replay_start + d_stake vest250)%num.
Proof.
  split; [simpl; lia|]. split; [reflexivity|]. split; [reflexivity|].
  vm_compute. congruence.
Qed.

(** C6.  When the accumulator processes a set_vesting event whose locked
    amount, unlock period and unlock rate are all strictly positive, it
    replaces in place the first schedule whose [lockedTuna] is exactly the new
    locked amount, if there is one, and appends the new schedule otherwise;
    a set_vesting event that fails the positivity test leaves the schedules
    unchanged. *)
Theorem set_vesting_replaces_or_appends `{host : Host}
    (st : Replay) (event : StakerEvent) :
  (11 <= List.length event)%nat ->
  is_type (typeOf event) 6 = true ->
  let new := declaredSchedule event in
  let old := vestingSchedules st in
  let updated := vestingSchedules (replayEvent st event) in
  let positive :=
    (zero < lockedTuna new)%num /\ (zero < unlockPeriodHours new)%num
    /\ (zero < unlockRateTuna new)%num in
  (positive ->
   (forall i s,
      nth_error old i = Some s -> eqb (lockedTuna s) (lockedTuna new) = true ->
      (forall j s', (j < i)%nat -> nth_error old j = Some s' ->
                    eqb (lockedTuna s') (lockedTuna new) = false) ->
      List.length updated = List.length old /\
      nth_error updated i = Some new /\
      forall j, j <> i -> nth_error updated j = nth_error old j) /\
   ((forall s, In s old -> eqb (lockedTuna s) (lockedTuna new) = false) ->
    updated = old ++ [new])) /\
  (~ positive -> updated = old).
Proof.
  intros Hlen H6 new old updated positive.
  destruct (replayEvent_set_vesting st event Hlen H6) as (_ & _ & _ & E).
  subst updated. rewrite E. clear E. subst positive. unfold setVesting.
  fold (declaredSchedule event). fold new. fold old.
  change (abs (d_stake event)) with (lockedTuna new).
  change (num_cell_or0 event 13) with (unlockPeriodHours new).
  change (num_cell_or0 event 14) with (unlockRateTuna new).
  unfold lt, gtb. split.
  - intros (Ha & Hp & Hr). rewrite Ha, Hp, Hr. cbn [andb]. cbv zeta.
    change {| startTime := Date_ofString (timestamp event);
              lockedTuna := lockedTuna new;
              cliffHours := num_cell_or0 event 12;
              unlockPeriodHours := unlockPeriodHours new;
              unlockRateTuna := unlockRateTuna new |} with new.
    split.
    + intros i s Hi Hs Hbefore.
      rewrite (findIndex_first (fun s => eqb (lockedTuna s) (lockedTuna new)) old i s Hi Hs
                 Hbefore).
      split; [apply assign_length|]. split.
      * apply assign_same. apply nth_error_Some. congruence.
      * intros j Hj. apply assign_other, Hj.
    + intro Hnone.
      rewrite (findIndex_none (fun s => eqb (lockedTuna s) (lockedTuna new)) old Hnone).
      reflexivity.
  - intro Hneg.
    destruct (ltb zero (lockedTuna new)) eqn:Ea; [|reflexivity].
    destruct (ltb zero (unlockPeriodHours new)) eqn:Ep; [|reflexivity].
    destruct (ltb zero (unlockRateTuna new)) eqn:Er; [|reflexivity].
    exfalso. apply Hneg. auto.
Qed.

Lemma set_vesting_replaces_or_appends_witness :
  let st := @replay reference_host [stake1000; vest250] in
  let again := sampleEvent "sig5" "2025-01-04T00:00:00Z" 6 250 0 0
                 [JNum 0; JNum 0; JNum 12; JNum 10] in
  vestingSchedules (@replayEvent reference_host st again)
  = [@declaredSchedule reference_host again] /\
  vestingSchedules (@replayEvent reference_host st vest400)
  = vestingSchedules st ++ [@declaredSchedule reference_host vest400].
Proof.
  intros st again.
  assert (L1 : (11 <= List.length again)%nat) by (simpl; lia).
  assert (L2 : (11 <= List.length vest400)%nat) by (simpl; lia).
  destruct (@set_vesting_replaces_or_appends reference_host st again L1 eq_refl)
    as [[Hreplace _] _]; [repeat split|].
  destruct (@set_vesting_replaces_or_appends reference_host st vest400 L2 eq_refl)
    as [[_ Happend] _]; [repeat split|].
  split.
  - destruct (Hreplace O (@declaredSchedule reference_host vest250) eq_refl eq_refl)
      as (Hl & Hn & _).
    + intros j s' Hj. lia.
    + destruct (vestingSchedules (@replayEvent reference_host st again)) as [|x [|y l]];
        simpl in Hl, Hn; try discriminate.
      injection Hn as ->. reflexivity.
  - apply Happend. intros s [<-|[]]. reflexivity.
Defined.



(** ** The vesting model *)

(** C3.  For the schedule with [cliffHours] = 24, [unlockPeriodHours] = 24,
    [unlockRateTuna] = 100 and [lockedTuna] = 250 started at [T0],
    [calculateLockedAmount] returns 250 at every instant strictly before
    [T0] + 24 h, 150 at [T0] + 48 h, 50 at [T0] + 72 h, and 0 at every instant
    at or after [T0] + 96 h. *)
Theorem vesting_boundary_values (T0 t : Z) :
  let schedule := finiteSchedule T0 250 24 24 100 in
  let hour := 3600000%Z in
  ((t < T0 + 24 * hour)%Z ->
   (calculateLockedAmount schedule (DateAt t) == Fin 250)%num) /\
  (calculateLockedAmount schedule (DateAt (T0 + 48 * hour)) == Fin 150)%num /\
  (calculateLockedAmount schedule (DateAt (T0 + 72 * hour)) == Fin 50)%num /\
  ((T0 + 96 * hour <= t)%Z ->
   (calculateLockedAmount schedule (DateAt t) == Fin 0)%num).
Proof.
  intros schedule hour. subst schedule hour.
  rewrite !calculateLockedAmount_finite by discriminate.
  split; [|split; [|split]].
  - intro H0. apply hoursBetween_lt in H0.
    rewrite remaining_cliff by exact H0. simpl. reflexivity.
  - simpl. rewrite (remaining_comp 250 24 24 100 _ _ (hoursBetween_shift T0 48)).
    reflexivity.
  - simpl. rewrite (remaining_comp 250 24 24 100 _ _ (hoursBetween_shift T0 72)).
    reflexivity.
  - intro H0. apply hoursBetween_ge in H0.
    assert (H1 := remaining_mono 250 24 24 100 (inject_Z 96) (hoursBetween T0 t)).
    assert (H2 := remaining_nonneg 250 24 24 100 (hoursBetween T0 t)).
    simpl. apply Qle_antisym.
    + apply Qle_trans with (remaining 250 24 24 100 (inject_Z 96)).
      * apply H1; try discriminate; try reflexivity. exact H0.
      * discriminate.
    + apply H2. discriminate.
Qed.

Lemma vesting_boundary_values_witness :
  (calculateLockedAmount (finiteSchedule 0 250 24 24 100) (DateAt 86399999) == Fin 250)%num /\
  (calculateLockedAmount (finiteSchedule 0 250 24 24 100) (DateAt 345600000) == Fin 0)%num.
Proof.
  split.
  - apply (vesting_boundary_values 0 86399999). reflexivity.
  - apply (vesting_boundary_values 0 345600000). discriminate.
Defined.

(** C5, as the code has it.  The guard is on the set_vesting branch of the
    accumulator, not in [calculateLockedAmount]: after any replay every
    schedule has a strictly positive unlock period and unlock rate, so the
    engine never divides by a zero period.  [calculateLockedAmount] itself,
    on a schedule with [unlockRateTuna] = 0, a strictly positive period and a
    locked amount that is not negative, returns the full locked amount at
    every instant. *)
Theorem zero_period_or_rate_guarded `{host : Host} :
  (forall events,
     Forall (fun s => (zero < unlockPeriodHours s)%num /\ (zero < unlockRateTuna s)%num)
            (vestingSchedules (replay events))) /\
  (forall (t0 t : Z) (L c p : Q),
     (0 <= L)%Q -> (0 < p)%Q ->
     (calculateLockedAmount (finiteSchedule t0 L c p 0) (DateAt t) == Fin L)%num).
Proof.
  split.
  - intro events.
    assert (Hpos := replay_positive events Replay_start (Forall_nil _)).
    eapply Forall_impl; [|exact Hpos].
    intros s (L & c & p & r & _ & _ & Hp & Hr & _ & ppos & rpos).
    rewrite Hp, Hr. split; apply lt_Fin; assumption.
  - intros t0 t L c p HL Hp.
    rewrite calculateLockedAmount_finite by lra. simpl.
    unfold remaining. destruct (Qltb (hoursBetween t0 t) c); [reflexivity|].
    cbv zeta. destruct (Qltb 0 _) eqn:E.
    + lra.
    + apply Qltb_ge in E. lra.
Qed.

Lemma zero_period_or_rate_guarded_witness :
  (calculateLockedAmount (finiteSchedule 0 250 24 24 0) (DateAt 345600000) == Fin 250)%num.
Proof.
  apply (@zero_period_or_rate_guarded reference_host); [discriminate|reflexivity].
Defined.

(** C5 refuted: with [unlockPeriodHours] = 0 the function divides by zero.
    Past the cliff end the quotient is +Infinity and the result 0, not the
    locked amount of 250; at the cliff end itself the quotient 0/0 and the
    result are NaN. *)
Lemma zero_period_unlocks_at_once :
  let schedule := finiteSchedule 0 250 24 0 100 in
  unlockPeriodHours schedule = zero /\
  calculateLockedAmount schedule (DateAt 172800000) = zero /\
  ~ (calculateLockedAmount schedule (DateAt 172800000) == lockedTuna schedule)%num /\
  calculateLockedAmount schedule (DateAt 86400000) = NaN.
Proof.
  split; [reflexivity|]. split; [reflexivity|]. split; [|reflexivity].
  vm_compute. congruence.
Qed.

(** C10, as the code has it.  For every schedule with [lockedTuna] >= 0,
    [cliffHours] >= 0, [unlockPeriodHours] > 0 and [unlockRateTuna] >= 0,
    [calculateLockedAmount] is nonincreasing in the instant, returns the full
    locked amount at every instant at or before the start of the schedule,
    and its result lies between 0 and the locked amount. *)
Theorem locked_amount_nonincreasing (t0 t1 t2 : Z) (L c p r : Q) :
  (0 <= L)%Q -> (0 <= c)%Q -> (0 < p)%Q -> (0 <= r)%Q ->
  let schedule := finiteSchedule t0 L c p r in
  ((t1 <= t2)%Z ->
   (calculateLockedAmount schedule (DateAt t2)
    <= calculateLockedAmount schedule (DateAt t1))%num) /\
  ((t1 <= t0)%Z -> (calculateLockedAmount schedule (DateAt t1) == Fin L)%num) /\
  (zero <= calculateLockedAmount schedule (DateAt t1))%num /\
  (calculateLockedAmount schedule (DateAt t1) <= Fin L)%num.
Proof.
  intros HL Hc Hp Hr schedule. subst schedule.
  assert (Hp' : ~ (p == 0)%Q) by lra.
  rewrite !calculateLockedAmount_finite by assumption.
  split; [|split; [|split]].
  - intro H0. apply le_Fin. apply remaining_mono; try assumption.
    apply hoursBetween_le, H0.
  - intro H0. simpl. apply remaining_at_start; try assumption.
    apply (hoursBetween_le t0) in H0.
    assert (E : (hoursBetween t0 t0 == 0)%Q).
    { unfold hoursBetween. assert (inject_Z t0 - inject_Z t0 == 0)%Q as -> by lra.
      reflexivity. }
    lra.
  - apply le_Fin. apply remaining_nonneg, HL.
  - apply le_Fin. apply remaining_le; assumption.
Qed.

Lemma locked_amount_nonincreasing_witness :
  let schedule := finiteSchedule 0 250 24 24 100 in
  (calculateLockedAmount schedule (DateAt 172800000)
   <= calculateLockedAmount schedule (DateAt 0))%num /\
  (calculateLockedAmount schedule (DateAt 0) == Fin 250)%num.
Proof.
  assert (H0 := locked_amount_nonincreasing 0 0 172800000 250 24 24 100).
  destruct H0 as (H1 & H2 & _); try reflexivity; try discriminate.
  split; [apply H1 | apply H2]; discriminate.
Defined.

(** C10 refuted: with a negative locked amount and no cliff the function
    returns 0, not the locked amount, at the start of the schedule, and its
    value rises from -5 to 0 there. *)
Lemma negative_locked_amount_rises :
  let schedule := finiteSchedule 0 (-5) 0 1 1 in
  (zero <= cliffHours schedule)%num /\
  (zero < unlockPeriodHours schedule)%num /\
  (zero <= unlockRateTuna schedule)%num /\
  ~ (calculateLockedAmount schedule (startTime schedule) == lockedTuna schedule)%num /\
  ~ (calculateLockedAmount schedule (DateAt 0)
     <= calculateLockedAmount schedule (DateAt (-1)))%num.
Proof.
  split; [reflexivity|]. split; [reflexivity|]. split; [reflexivity|].
  split; vm_compute; congruence.
Qed.

(** ** The extender *)



(** C8.  For a wallet whose accumulated timeline has exactly one point and
    which has no vesting schedule, when the cache has an end date and the
    end of that day is later than the date of the point, the lookup succeeds
    and its timeline has exactly two points: the accumulated point, and a
    point dated at the end of the last day of the cache with the same staked,
    unstaked, locked and realized_rewards values. *)
Theorem single_point_extended_to_cache_end `{host : Host}
    (walletAddress : string)
    (wallets : list (string * AddressData)) (log : list StakerEvent)
    (start : option string) (cacheEndDate : string)
    (addrData : AddressData) (p : TimelinePoint) (ops : list Operation) :
  let cache := {| addresses := Some wallets; events := Some log;
                  meta := Some {| meta_start := start; meta_end := Some cacheEndDate |} |} in
  let cacheEndTimestamp := (cacheEndDate ++ "T23:59:59Z")%string in
  lookup walletAddress wallets = Some addrData ->
  first_event addrData <> None -> last_event addrData <> None ->
  buildBalanceTimeline (filter (isWalletEvent walletAddress) log) = ([p], ops, []) ->
  cacheEndDate <> EmptyString ->
  (date p <? cacheEndTimestamp)%string = true ->
  exists range summary,
    parseWalletTimeline walletAddress cache
    = Some (Found walletAddress range
              [p; {| date := cacheEndTimestamp; staked := staked p;
                     unstaked := unstaked p; locked := locked p;
                     realized_rewards := realized_rewards p |}]
              ops summary).
Proof.
  intros cache cacheEndTimestamp Hlookup Hfirst Hlast Hbuild Hday Hlater.
  subst cache cacheEndTimestamp. unfold parseWalletTimeline.
  cbn [addresses events meta meta_end]. rewrite Hlookup.
  destruct (first_event addrData); [|contradiction].
  destruct (last_event addrData); [|contradiction].
  destruct (filter (isWalletEvent walletAddress) log) as [|e walletEvents] eqn:E.
  - discriminate Hbuild.
  - rewrite Hbuild. unfold extendTimeline.
    assert (Htruthy : truthy_string (Some cacheEndDate) = Some cacheEndDate).
    { destruct cacheEndDate; [contradiction|reflexivity]. }
    rewrite Htruthy. unfold extendToCacheEnd. simpl last. rewrite Hlater.
    simpl. eexists. eexists. reflexivity.
Qed.

Lemma single_point_extended_to_cache_end_witness :
  exists p range ops summary,
    @parseWalletTimeline reference_host "wallet" (sampleCache [stake1000] "2025-01-11")
    = Some (Found "wallet" range
              [p; {| date := "2025-01-11T23:59:59Z"; staked := staked p;
                     unstaked := unstaked p; locked := locked p;
                     realized_rewards := realized_rewards p |}]
              ops summary).
Proof.
  edestruct (@single_point_extended_to_cache_end reference_host "wallet"
               [("wallet"%string,
                 {| first_event := Some zero; last_event := Some zero; current := None |})]
               [stake1000] None "2025-01-11")
    as (range & summary & E).
  - reflexivity.
  - discriminate.
  - discriminate.
  - reflexivity.
  - discriminate.
  - reflexivity.
  - do 4 eexists. exact E.
Defined.

(** ** The summary *)

(** C9 fails on the code.  A wallet whose single event has a timestamp that
    does not parse gets a timeline of one point and a [days_active] of NaN,
    not of 1: no operation inside the [try] throws, so the default (the
    timeline length) is always overwritten. *)
Theorem days_active_of_unparsable_date :
  let badStamp := sampleEvent "sig6" "not a date" 1 1000 0 0 [] in
  exists range timeline ops summary,
    @parseWalletTimeline reference_host "wallet" (sampleCache [badStamp] "2025-01-10")
    = Some (Found "wallet" range timeline ops summary) /\
    List.length timeline = 1%nat /\
    days_active summary = NaN.
Proof.
  do 4 eexists. split; [reflexivity|]. split; reflexivity.
Qed.

(* ================================================================== *)
(** * Further properties of the accumulator *)
(* ================================================================== *)

(** X1.  Events of fewer than 11 cells leave no trace: wherever they stand
    in the sequence, the accumulator returns the timeline, the operations
    and the schedules it returns for the sequence without them. *)
Theorem malformed_events_leave_no_trace `{host : Host} (events : list StakerEvent) :
  buildBalanceTimeline events = buildBalanceTimeline (replayed events).
Proof.
  unfold buildBalanceTimeline, replay. rewrite replay_from_replayed. reflexivity.
Qed.

(** X2.  The accumulator pushes one point and one operation per event of at
    least 11 cells, in the order of the events: the two arrays have the
    length of those events, and at every index the point and the operation
    carry the timestamp of the event and the operation its signature. *)
Theorem one_point_and_operation_per_event `{host : Host} (events : list StakerEvent) :
  let '(timeline, operations, _) := buildBalanceTimeline events in
  List.length timeline = List.length (replayed events) /\
  List.length operations = List.length (replayed events) /\
  map date timeline = map timestamp (replayed events) /\
  map op_date operations = map timestamp (replayed events) /\
  map op_signature operations = map (fun event => str_cell event 0) (replayed events).
Proof.
  unfold buildBalanceTimeline.
  assert (Hd := replay_op_dates_from events Replay_start).
  assert (Hs := replay_op_signatures_from events Replay_start).
  simpl in Hd, Hs. fold (replay events) in Hd, Hs.
  split; [apply replay_timeline_length|].
  split; [rewrite <- (length_map op_date), Hd, length_map; reflexivity|].
  split; [apply replay_dates|]. split; assumption.
Qed.

(** X3.  The operation recorded for an event depends on that event alone:
    the operations of a sequence are, in order, the operations the
    accumulator records for each of its events replayed on its own. *)
Theorem operations_independent_of_history `{host : Host} (events : list StakerEvent) :
  let '(_, operations, _) := buildBalanceTimeline events in
  operations
  = flat_map (fun event => let '(_, alone, _) := buildBalanceTimeline [event] in alone)
             events.
Proof.
  unfold buildBalanceTimeline, replay. rewrite replay_operations_from. reflexivity.
Qed.

(** X4.  Later events never rewrite history: the timeline and the
    operations of a sequence of events begin with the timeline and the
    operations of each of its prefixes, even when a later set_vesting event
    replaces a schedule the earlier points were computed with. *)
Theorem later_events_keep_earlier_points `{host : Host}
    (before after : list StakerEvent) :
  let '(timeline0, operations0, _) := buildBalanceTimeline before in
  let '(timeline, operations, _) := buildBalanceTimeline (before ++ after) in
  exists points ops,
    timeline = (timeline0 ++ points)%list /\ operations = (operations0 ++ ops)%list.
Proof.
  unfold buildBalanceTimeline. rewrite replay_app.
  destruct (replay_timeline_from after (replay before)) as [points ->].
  rewrite replay_operations_from. eexists. eexists. split; reflexivity.
Qed.



(** X6.  No two schedules the accumulator returns have the same locked
    amount: a set_vesting event whose amount equals the locked amount of a
    schedule replaces that schedule, so a wallet never has two schedules of
    equal amounts, whatever its events. *)
Theorem schedules_have_distinct_amounts `{host : Host} (events : list StakerEvent) :
  let '(_, _, vestingSchedules) := buildBalanceTimeline events in
  distinctAmounts vestingSchedules.
Proof.
  unfold buildBalanceTimeline, replay. apply replay_distinct.
  intros i j si sj Hi. destruct i; discriminate.
Qed.

(** X7.  The amount of an operation is never negative, except for a compound
    or a claim, whose amount is the [reward_sol] cell of the event as it
    is: the other types record an absolute value, and an unknown type
    records 0. *)
Theorem operation_amounts_not_negative `{host : Host} (events : list StakerEvent) :
  let '(_, operations, _) := buildBalanceTimeline events in
  Forall (fun op =>
            op_type op = "compound"%string \/ op_type op = "claim"%string \/
            (zero <= op_amount op)%num)
         operations.
Proof.
  unfold buildBalanceTimeline, replay. rewrite replay_operations_from. simpl.
  apply Forall_flat_map. apply Forall_forall. intros ev _. apply replayEvent_amount.
Qed.

(** X8.  An event whose timestamp does not parse, replayed while the wallet
    has a vesting schedule, pushes a point whose locked value is NaN: the
    locked amount of every schedule at an invalid date is NaN, and neither
    the cap by the staked balance nor the rounding removes it. *)
Theorem unparsable_timestamp_gives_NaN_locked `{host : Host}
    (st : Replay) (event : StakerEvent) :
  (11 <= List.length event)%nat ->
  Date_ofString (timestamp event) = InvalidDate ->
  vestingSchedules (replayEvent st event) <> [] ->
  exists p,
    timeline (replayEvent st event) = (timeline st ++ [p])%list /\
    date p = timestamp event /\ locked p = NaN.
Proof.
  intros H0 Hdate Hs. eexists. split; [apply replayEvent_timeline, H0|].
  split; [reflexivity|]. unfold pointAfter. simpl.
  rewrite Hdate, (sumLocked_invalid _ Hs). reflexivity.
Qed.

Lemma unparsable_timestamp_gives_NaN_locked_witness :
  let st := @replay reference_host [stake1000; vest250] in
  let event := sampleEvent "sig7" "not a date" 1 10 0 0 [] in
  exists p,
    timeline (@replayEvent reference_host st event) = (timeline st ++ [p])%list /\
    locked p = NaN.
Proof.
  intros st event.
  destruct (@unparsable_timestamp_gives_NaN_locked reference_host st event)
    as (p & Hp & _ & Hl).
  - simpl. lia.
  - reflexivity.
  - vm_compute. discriminate.
  - exists p. split; assumption.
Defined.

(* ================================================================== *)
(** * Further properties of the vesting model *)
(* ================================================================== *)







(* ================================================================== *)
(** * Further properties of the extender *)
(* ================================================================== *)

(** X12.  No unlock time the extender collects is after the end of the
    cache, and when the end of the cache does not parse it collects none:
    the comparison with an invalid date is false for every unlock time. *)
Theorem unlock_times_not_after_cache_end
    (schedules : list VestingSchedule) (cacheEndTime : Date) (times : list Z) :
  collectUnlockTimes schedules cacheEndTime = Some times ->
  match cacheEndTime with
  | DateAt e => Forall (fun u => u <= e) times
  | InvalidDate => times = []
  end.
Proof.
  revert times. induction schedules as [|s schedules IH]; intros times; simpl.
  - intros [= <-]. destruct cacheEndTime; [reflexivity|constructor].
  - destruct (unlockTimesOf s cacheEndTime) as [a|] eqn:Ha; [|discriminate].
    destruct (collectUnlockTimes schedules cacheEndTime) as [b|]; [|discriminate].
    simpl. intros [= <-].
    assert (H1 := unlockTimesOf_not_after s cacheEndTime a Ha).
    assert (H2 := IH b eq_refl).
    destruct cacheEndTime.
    + subst. reflexivity.
    + apply Forall_app. auto.
Qed.

Lemma unlock_times_not_after_cache_end_witness :
  exists times,
    collectUnlockTimes [finiteSchedule 0 250 24 24 100] (DateAt (2 * 86400000)) = Some times /\
    Forall (fun u => u <= 2 * 86400000) times /\
    collectUnlockTimes [finiteSchedule 0 250 24 24 100] InvalidDate = Some [].
Proof.
  eexists. split; [reflexivity|]. split.
  - apply (unlock_times_not_after_cache_end [finiteSchedule 0 250 24 24 100]
             (DateAt (2 * 86400000))).
    reflexivity.
  - reflexivity.
Defined.

(** X13.  For a wallet with a vesting schedule and a cache with an end
    date, the timeline the extender returns is sorted by date in the order
    of the host, provided that order is one: of two strings one is not
    after the other, and "not after" is transitive. *)
Theorem vesting_timeline_is_sorted `{host : Host}
    (cacheEndDate : string) (schedules : list VestingSchedule)
    (accumulated final : list TimelinePoint) :
  orderedCompare localeCompare ->
  cacheEndDate <> EmptyString -> schedules <> [] ->
  extendTimeline (Some cacheEndDate) schedules accumulated = Some final ->
  StronglySorted notAfter final.
Proof.
  intros Horder Hday Hs. unfold extendTimeline.
  destruct cacheEndDate as [|a day]; [contradiction|]. simpl truthy_string. cbv iota.
  destruct schedules as [|s schedules]; [contradiction|].
  destruct (collectUnlockTimes _ _) as [times|]; [|discriminate].
  simpl bind. intros [= <-]. apply sortTimeline_sorted, Horder.
Qed.

Lemma vesting_timeline_is_sorted_witness :
  let st := @replay reference_host [stake1000; vest250] in
  exists final,
    @extendTimeline reference_host (Some "2025-01-10"%string) (vestingSchedules st)
      (timeline st) = Some final /\
    StronglySorted (@notAfter reference_host) final.
Proof.
  intro st. eexists. split; [reflexivity|].
  apply (@vesting_timeline_is_sorted reference_host "2025-01-10"
           (vestingSchedules st) (timeline st)).
  - split.
    + intros a b E. simpl in *. rewrite String.compare_antisym, E. discriminate.
    + intros a b c H1 H2. simpl in *.
      assert (L1 : (a <=? b)%string = true).
      { unfold String.leb. destruct (a ?= b)%string; congruence. }
      assert (L2 : (b <=? c)%string = true).
      { unfold String.leb. destruct (b ?= c)%string; congruence. }
      assert (L3 := string_leb_trans a b c L1 L2).
      unfold String.leb in L3. destruct (a ?= c)%string; congruence.
  - discriminate.
  - vm_compute. discriminate.
  - reflexivity.
Defined.

(** X14.  With an end date in the cache, the extended timeline of a wallet
    reaches the end of the cache: it has a point dated at or after the end
    of the last day of the cache, in the order of the timestamp strings,
    with or without vesting schedules. *)
Theorem extended_timeline_reaches_cache_end `{host : Host}
    (cacheEndDate : string) (schedules : list VestingSchedule)
    (accumulated final : list TimelinePoint) :
  cacheEndDate <> EmptyString -> accumulated <> [] ->
  extendTimeline (Some cacheEndDate) schedules accumulated = Some final ->
  exists p, In p final /\ (cacheEndDate ++ "T23:59:59Z" <=? date p)%string = true.
Proof.
  intros Hday Htl. unfold extendTimeline.
  destruct cacheEndDate as [|a day]; [contradiction|]. simpl truthy_string. cbv iota.
  destruct schedules as [|s schedules].
  - intros [= <-]. apply extendToCacheEnd_reaches, Htl.
  - destruct (collectUnlockTimes _ _) as [times|]; [|discriminate].
    simpl bind. intros [= <-].
    destruct (insertUnlockPoints_appends (s :: schedules) accumulated times) as [added E].
    destruct (addFinalPoint_reaches (s :: schedules) (String a day ++ "T23:59:59Z")
                (insertUnlockPoints (s :: schedules) accumulated times)) as (p & Hp & Hle).
    { rewrite E. destruct accumulated; [contradiction|discriminate]. }
    exists p. split; [|exact Hle].
    eapply Permutation_in; [symmetry; apply sortTimeline_perm|exact Hp].
Qed.

Lemma extended_timeline_reaches_cache_end_witness :
  let st := @replay reference_host [stake1000; vest250] in
  exists final,
    @extendTimeline reference_host (Some "2025-01-10"%string) (vestingSchedules st)
      (timeline st) = Some final /\
    exists p, In p final /\ ("2025-01-10T23:59:59Z" <=? date p)%string = true.
Proof.
  intro st. eexists. split; [reflexivity|].
  apply (@extended_timeline_reaches_cache_end reference_host "2025-01-10"
           (vestingSchedules st) (timeline st)).
  - discriminate.
  - vm_compute. discriminate.
  - reflexivity.
Defined.

(* ================================================================== *)
(** * Further properties of the lookup *)
(* ================================================================== *)



(** X17.  The summary counts the real activity of the wallet, not the points
    the extender adds: the operations returned are those of the events of
    the wallet of 11 cells or more, one each, [total_operations] is their
    number and [last_activity_date] is the timestamp of the last of them,
    however far the timeline has been extended. *)
Theorem summary_counts_real_activity `{host : Host}
    (walletAddress wallet : string) (cache : StakerCache) (range : string * string)
    (final : list TimelinePoint) (ops : list Operation) (summary : WalletSummary) :
  parseWalletTimeline walletAddress cache = Some (Found wallet range final ops summary) ->
  let activity := replayed (walletEventsOf walletAddress cache) in
  activity <> [] /\
  map op_date ops = map timestamp activity /\
  total_operations summary = ofZ (Z.of_nat (List.length activity)) /\
  last_activity_date summary = timestamp (last activity []).
Proof.
  intros E activity.
  destruct (parseWalletTimeline_found _ _ _ _ _ _ _ E)
    as (addrData & first & rest & _ & _ & Htl & _ & Hops & Hsum & _).
  assert (Hlen := replay_timeline_length (walletEventsOf walletAddress cache)).
  rewrite Htl in Hlen. fold activity in Hlen.
  assert (Hdates : map op_date ops = map timestamp activity).
  { rewrite Hops. exact (replay_op_dates_from (walletEventsOf walletAddress cache) Replay_start). }
  split; [destruct activity; [discriminate|discriminate]|].
  split; [exact Hdates|]. subst summary. simpl. split.
  - rewrite <- (length_map op_date), Hdates, length_map. reflexivity.
  - assert (Hlast := rev_head_last (map op_date ops) (date (hd first final))).
    rewrite <- map_rev in Hlast.
    destruct (rev ops) as [|op l] eqn:Hrev.
    + assert (Hnil : ops = []).
      { rewrite <- (rev_involutive ops), Hrev. reflexivity. }
      rewrite Hnil in Hdates. destruct activity; discriminate.
    + simpl in Hlast. rewrite Hlast, Hdates.
      destruct activity as [|e l'] eqn:Ha; [discriminate|].
      rewrite <- (last_map timestamp (e :: l') []).
      apply last_default.
Qed.

Lemma summary_counts_real_activity_witness :
  exists wallet range timeline operations summary,
    @parseWalletTimeline reference_host "wallet"
      (sampleCache [stake1000; vest250; unstake5] "2025-01-10")
    = Some (Found wallet range timeline operations summary) /\
    total_operations summary = ofZ 3 /\
    last_activity_date summary = "2025-01-03T00:00:00Z"%string.
Proof.
  do 5 eexists. split; [reflexivity|].
  destruct (@summary_counts_real_activity reference_host "wallet" _
              (sampleCache [stake1000; vest250; unstake5] "2025-01-10") _ _ _ _ eq_refl)
    as (_ & _ & H1 & H2).
  split; [exact H1|exact H2].
Defined.

(** X18.  The events of other wallets do not matter: an event that is not an
    event of the wallet (it has fewer than 5 cells, or its address cell is
    not the wallet) can be added to the cache or removed from it, anywhere,
    without changing the result of the lookup. *)
Theorem other_wallets_do_not_matter `{host : Host}
    (walletAddress : string) (wallets : option (list (string * AddressData)))
    (before after : list StakerEvent) (event : StakerEvent) (cacheMeta : option CacheMeta) :
  isWalletEvent walletAddress event = false ->
  parseWalletTimeline walletAddress
    {| addresses := wallets; events := Some (before ++ event :: after); meta := cacheMeta |}
  = parseWalletTimeline walletAddress
      {| addresses := wallets; events := Some (before ++ after); meta := cacheMeta |}.
Proof.
  intro Hother. unfold parseWalletTimeline. cbn [addresses events meta].
  rewrite !filter_app. simpl filter. rewrite Hother. reflexivity.
Qed.

Lemma other_wallets_do_not_matter_witness :
  let foreign := [JStr "sig9"; JStr "2025-01-02T00:00:00Z"; JNum 1; JNum 1; JStr "other";
                  JNum 7; JNum 0; JNum 0; JNum 0; JNull; JNum 0] in
  @parseWalletTimeline reference_host "wallet"
    (sampleCache ([stake1000] ++ foreign :: [unstake5]) "2025-01-10")
  = @parseWalletTimeline reference_host "wallet"
      (sampleCache ([stake1000] ++ [unstake5]) "2025-01-10").
Proof.
  intro foreign.
  apply (@other_wallets_do_not_matter reference_host "wallet" _ [stake1000] [unstake5] foreign).
  reflexivity.
Defined.

(** X19.  When the first date of the timeline and the date of the last
    operation parse, [days_active] is the whole number [n] of the
    24-hour day the last operation falls in, counted from the first date:
    [(n - 1) days <= last - first < n days].  It is 1 for a wallet whose
    operations all fall within 24 hours, whatever the calendar days. *)
Theorem days_active_counts_24_hour_days `{host : Host}
    (walletAddress wallet : string) (cache : StakerCache) (range : string * string)
    (final : list TimelinePoint) (ops : list Operation) (summary : WalletSummary)
    (a b : Z) :
  parseWalletTimeline walletAddress cache = Some (Found wallet range final ops summary) ->
  Date_ofString (first_stake_date summary) = DateAt a ->
  Date_ofString (last_activity_date summary) = DateAt b ->
  exists n : Z,
    (days_active summary == ofZ n)%num /\
    (n - 1) * 86400000 <= b - a < n * 86400000.
Proof.
  intros E Ha Hb.
  destruct (parseWalletTimeline_found _ _ _ _ _ _ _ E)
    as (addrData & first & rest & _ & _ & _ & _ & _ & Hsum & _).
  subst summary. cbn [days_active first_stake_date last_activity_date summarize] in *.
  exists ((b - a) / 86400000 + 1). split.
  - apply daysActive_parsed; assumption.
  - assert (H0 := Z.div_mod (b - a) 86400000).
    assert (H1 := Z.mod_pos_bound (b - a) 86400000). lia.
Qed.

Lemma days_active_counts_24_hour_days_witness :
  exists wallet range timeline operations summary,
    @parseWalletTimeline reference_host "wallet"
      (sampleCache [stake1000; vest250; unstake5] "2025-01-10")
    = Some (Found wallet range timeline operations summary) /\
    exists n : Z, (days_active summary == ofZ n)%num /\
                  (n - 1) * 86400000 <= 1735862400000 - 1735689600000 < n * 86400000.
Proof.
  do 5 eexists. split; [reflexivity|].
  apply (@days_active_counts_24_hour_days reference_host "wallet" _
           (sampleCache [stake1000; vest250; unstake5] "2025-01-10") _ _ _ _
           1735689600000 1735862400000 eq_refl).
  - reflexivity.
  - reflexivity.
Defined.

(* ================================================================== *)
(** * Properties of the chart *)
(* ================================================================== *)

(** X20.  A wallet none of whose events is a set_vesting event has no
    vesting in its result: every point of its timeline, the point added at
    the end of the cache included, has the locked value [min(0, staked)],
    which is 0 while the staked balance is not negative, and the chart
    finds no positive locked value, so that it draws no vesting area. *)
Theorem no_set_vesting_no_vesting_area `{host : Host}
    (walletAddress wallet : string) (cache : StakerCache) (range : string * string)
    (final : list TimelinePoint) (ops : list Operation) (summary : WalletSummary) :
  parseWalletTimeline walletAddress cache = Some (Found wallet range final ops summary) ->
  forallb movesBalances (replayed (walletEventsOf walletAddress cache)) = true ->
  Forall nothingLocked final /\
  exists chart,
    chartData (Found wallet range final ops summary) = Some chart /\
    hasVesting chart = false.
Proof.
  intros E Hev.
  destruct (parseWalletTimeline_found _ _ _ _ _ _ _ E)
    as (addrData & first & rest & _ & _ & Htl & Hext & _).
  destruct (replay_without_vesting (walletEventsOf walletAddress cache) Replay_start Hev
              eq_refl (Forall_nil _)) as [Hs Hacc].
  fold (replay (walletEventsOf walletAddress cache)) in Hs, Hacc.
  rewrite Hs in Hext. rewrite Htl in Hacc.
  destruct (extendTimeline_without_vesting _ _ _ Hext) as [_ Hfinal].
  specialize (Hfinal Hacc). split; [exact Hfinal|].
  eexists. split; [reflexivity|]. cbn [hasVesting].
  clear -Hfinal. induction Hfinal as [|p l Hp _ IH]; [reflexivity|].
  cbn [map existsb]. rewrite (nothingLocked_not_positive p Hp). exact IH.
Qed.

Lemma no_set_vesting_no_vesting_area_witness :
  exists wallet range final ops summary chart,
    @parseWalletTimeline reference_host "wallet"
      (sampleCache [stake1000; unstake5] "2025-01-10")
    = Some (Found wallet range final ops summary) /\
    chartData (Found wallet range final ops summary) = Some chart /\
    hasVesting chart = false.
Proof.
  do 5 eexists.
  destruct (@no_set_vesting_no_vesting_area reference_host "wallet" _
              (sampleCache [stake1000; unstake5] "2025-01-10") _ _ _ _ eq_refl eq_refl)
    as (_ & chart & Hchart & Hv).
  exists chart. split; [reflexivity|]. split; assumption.
Defined.



(** X22.  Without vesting schedule the markers of the chart sit on the
    points of their operations: the timeline of the result begins with the
    accumulated points, so that the point the chart reads at the index of an
    operation is the point the accumulator pushed with it, with its date
    and the staked balance after it. *)
Theorem markers_sit_on_their_points_without_vesting `{host : Host}
    (walletAddress wallet : string) (cache : StakerCache) (range : string * string)
    (final : list TimelinePoint) (ops : list Operation) (summary : WalletSummary) :
  parseWalletTimeline walletAddress cache = Some (Found wallet range final ops summary) ->
  (let '(_, _, vestingSchedules) := buildBalanceTimeline (walletEventsOf walletAddress cache) in
   vestingSchedules = []) ->
  forall idx op,
    nth_error ops idx = Some op ->
    exists p,
      (let '(accumulated, _, _) := buildBalanceTimeline (walletEventsOf walletAddress cache) in
       nth_error accumulated idx = Some p) /\
      nth_error final idx = Some p /\
      date p = op_date op /\
      baseY final idx = or0 (staked p).
Proof.
  intros E Hs idx op Hop. unfold buildBalanceTimeline in *.
  destruct (parseWalletTimeline_found _ _ _ _ _ _ _ E)
    as (addrData & first & rest & _ & _ & Htl & Hext & Hops & _).
  rewrite Hs in Hext.
  destruct (extendTimeline_without_vesting _ _ _ Hext) as [[added Hfinal] _].
  assert (Hdates : map op_date ops
                   = map date (timeline (replay (walletEventsOf walletAddress cache)))).
  { rewrite Hops, replay_dates.
    exact (replay_op_dates_from (walletEventsOf walletAddress cache) Replay_start). }
  assert (Hidx : (idx < List.length (timeline (replay (walletEventsOf walletAddress cache))))%nat).
  { rewrite <- (length_map date), <- Hdates, length_map. apply nth_error_Some. congruence. }
  destruct (nth_error (timeline (replay (walletEventsOf walletAddress cache))) idx)
    as [p|] eqn:Hp; [|apply nth_error_None in Hp; lia].
  exists p. split; [reflexivity|].
  assert (Hp' : nth_error final idx = Some p).
  { rewrite Hfinal, <- Htl, nth_error_app1 by exact Hidx. exact Hp. }
  split; [exact Hp'|]. split.
  - assert (H1 : nth_error (map op_date ops) idx = Some (op_date op)).
    { rewrite nth_error_map, Hop. reflexivity. }
    rewrite Hdates, nth_error_map, Hp in H1. injection H1 as H1. exact H1.
  - unfold baseY. rewrite Hp'. reflexivity.
Qed.

Lemma markers_sit_on_their_points_without_vesting_witness :
  exists wallet range final ops summary op p,
    @parseWalletTimeline reference_host "wallet"
      (sampleCache [stake1000; unstake5] "2025-01-10")
    = Some (Found wallet range final ops summary) /\
    nth_error ops 1 = Some op /\
    nth_error final 1 = Some p /\ date p = op_date op.
Proof.
  do 5 eexists.
  destruct (@markers_sit_on_their_points_without_vesting reference_host "wallet" _
              (sampleCache [stake1000; unstake5] "2025-01-10") _ _ _ _ eq_refl eq_refl
              1%nat _ eq_refl)
    as (p & _ & Hp & Hd & _).
  eexists. exists p. split; [reflexivity|]. split; [reflexivity|]. split; assumption.
Defined.

(** X23.  The markers of the chart are the operations, grouped by type: the
    object of the groups has one key per type that occurs, and its group for
    a type holds, in their order, the date, the amount and the signature of
    every operation of that type, with the staked value the timeline has at
    the index of the operation times the offset of the type; it has no
    group for a type that does not occur. *)
Theorem markers_are_operations_grouped_by_type
    (wallet : string) (range : string * string) (final : list TimelinePoint)
    (ops : list Operation) (summary : WalletSummary) (type : string) :
  exists chart,
    chartData (Found wallet range final ops summary) = Some chart /\
    NoDup (map fst (opsByType chart)) /\
    property type (opsByType chart)
    = if existsb (fun op => String.eqb (op_type op) type) ops
      then Some (markersOf type final (indexedFrom 0 ops)) else None.
Proof.
  eexists. split; [reflexivity|]. cbn [opsByType]. split.
  - apply NoDup_groupOperations. constructor.
  - rewrite (groupOperations_groups final ops 0 [] []) by reflexivity.
    unfold groupFor. simpl app.
    assert (E : forall from,
              existsb (fun entry => String.eqb (op_type (snd entry)) type) (indexedFrom from ops)
              = existsb (fun op => String.eqb (op_type op) type) ops).
    { induction ops as [|op rest IH]; intro from; [reflexivity|].
      change (indexedFrom from (op :: rest)) with ((from, op) :: indexedFrom (S from) rest).
      simpl. rewrite IH. reflexivity. }
    rewrite E. reflexivity.
Qed.

(** X24.  The legend click the chart handles itself is the click on the
    realized rewards: whenever the handler returns [false] to keep Plotly
    from toggling the trace, it has toggled [showRewards], and the trace
    that was clicked is the line of the realized rewards, with or without a
    vesting area before it. *)
Theorem handled_legend_click_is_on_rewards_line
    (chart : ChartData) (curveNumber : nat) (showRewards : bool) :
  snd (handleLegendClick chart curveNumber showRewards) = false ->
  fst (handleLegendClick chart curveNumber showRewards) = negb showRewards /\
  nth_error (traces chart) curveNumber = Some (rewardsLine chart).
Proof.
  unfold handleLegendClick, rewardsTraceIndex, traces.
  destruct (Nat.eqb curveNumber _) eqn:E; [|discriminate]. intros _.
  apply Nat.eqb_eq in E. subst curveNumber. split; [reflexivity|].
  destruct (hasVesting chart); reflexivity.
Qed.

Lemma handled_legend_click_is_on_rewards_line_witness :
  exists data chart,
    @parseWalletTimeline reference_host "wallet"
      (sampleCache [stake1000; vest250; unstake5] "2025-01-10") = Some data /\
    chartData data = Some chart /\
    nth_error (traces chart) 3 = Some (rewardsLine chart).
Proof.
  do 2 eexists. split; [reflexivity|]. split; [reflexivity|].
  apply (handled_legend_click_is_on_rewards_line _ 3%nat true). reflexivity.
Defined.

(** X25.  An address longer than the two counts together is displayed as
    its first [startChars] characters, three dots, and its last [endChars]
    characters (for [endChars > 0]), with at least one character left out
    between them; an address that is not longer is displayed as it is. *)
Theorem truncated_address_keeps_both_ends (address : string) (startChars endChars : nat) :
  (0 < endChars)%nat ->
  (startChars + endChars < String.length address)%nat ->
  exists first middle last,
    address = (first ++ middle ++ last)%string /\
    String.length first = startChars /\ String.length last = endChars /\
    middle <> EmptyString /\
    truncateAddress address startChars endChars = (first ++ "..." ++ last)%string.
Proof.
  intros He Hlen. set (n := String.length address) in *.
  exists (substring 0 startChars address),
         (substring startChars (n - startChars - endChars) address),
         (substring (n - endChars) endChars address).
  split; [|split; [|split; [|split]]].
  - rewrite <- (substring_all address) at 1. fold n.
    replace n with (startChars + ((n - startChars - endChars) + endChars))%nat at 1 by lia.
    rewrite 2!substring_split. simpl.
    replace (startChars + (n - startChars - endChars))%nat with (n - endChars)%nat by lia.
    reflexivity.
  - apply substring_length. fold n. lia.
  - apply substring_length. fold n. lia.
  - intro E.
    assert (H0 : String.length (substring startChars (n - startChars - endChars) address)
                 = (n - startChars - endChars)%nat) by (apply substring_length; fold n; lia).
    rewrite E in H0. simpl in H0. lia.
  - unfold truncateAddress, sliceFromEnd. fold n.
    destruct (String.eqb address "") eqn:E.
    + apply String.eqb_eq in E. unfold n in Hlen. rewrite E in Hlen. simpl in Hlen. lia.
    + assert (E' : (n <=? startChars + endChars)%nat = false) by (apply Nat.leb_gt; lia).
      rewrite E'. simpl orb. cbv iota.
      destruct endChars; [lia|]. reflexivity.
Qed.

Lemma truncated_address_keeps_both_ends_witness :
  exists first last : string,
    String.length first = 5%nat /\ String.length last = 5%nat /\
    truncateAddress "9xQeWvG816bUx9EPjHmaT23yvVM2ZWbrrpZb9PusVFin" 5 5
    = (first ++ "..." ++ last)%string.
Proof.
  destruct (truncated_address_keeps_both_ends
              "9xQeWvG816bUx9EPjHmaT23yvVM2ZWbrrpZb9PusVFin" 5 5)
    as (first & middle & last & _ & H1 & H2 & _ & H3).
  - lia.
  - apply Nat.ltb_lt. reflexivity.
  - exists first, last. auto.
Defined.

(** X26.  The legend grid the chart reserves room for holds every trace:
    for every finite width the estimated number of columns is a whole number
    of at least 1, the estimated number of rows is a whole number, and rows
    times columns is at least the number of traces of the chart. *)
Theorem legend_grid_holds_every_trace (isMobile : bool) (width : Q) (chart : ChartData) :
  exists columns rows : Z,
    estimatedColumns isMobile (Fin width) = ofZ columns /\
    estimatedRows isMobile (Fin width) chart = ofZ rows /\
    1 <= columns /\
    Z.of_nat (List.length (traces chart)) <= rows * columns.
Proof.
  assert (Hcols : exists columns : Z,
            estimatedColumns isMobile (Fin width) = ofZ columns /\ 1 <= columns).
  { unfold estimatedColumns.
    assert (H0 : forall m avg : Z, 0 < avg ->
              exists columns : Z,
                max (ofZ 1) (floor ((Fin width - ofZ m) / ofZ avg)) = ofZ columns
                /\ 1 <= columns).
    { intros m avg Havg. unfold ofZ.
      rewrite sub_Fin, div_Fin, floor_Fin, max_Fin.
      - destruct (Qltb _ _) eqn:E.
        + eexists. split; [reflexivity|].
          apply Qltb_lt in E. rewrite <- Zlt_Qlt in E. lia.
        + exists 1. split; [reflexivity|lia].
      - intro E. unfold Qeq in E. simpl in E. lia. }
    destruct isMobile;
      [destruct (ltb (Fin width) (ofZ 420)); [apply (H0 0 130)|apply (H0 50 130)]
      |apply (H0 80 200)]; reflexivity. }
  destruct Hcols as (columns & Hc & Hpos). exists columns.
  set (n := 3 + 1 + Z.of_nat (List.length (opsByType chart))).
  assert (Hnz : ~ (inject_Z columns == 0)%Q).
  { intro E. unfold Qeq in E. simpl in E. lia. }
  assert (Hrows : estimatedRows isMobile (Fin width) chart
                  = ofZ (Qceiling (inject_Z n / inject_Z columns))).
  { unfold estimatedRows, numLegendItems. rewrite Hc. fold n. unfold ofZ.
    rewrite div_Fin by exact Hnz. reflexivity. }
  eexists. split; [exact Hc|]. split; [exact Hrows|]. split; [exact Hpos|].
  assert (Hn : Z.of_nat (List.length (traces chart)) <= n).
  { unfold traces. rewrite !length_app, length_map. subst n.
    destruct (hasVesting chart); simpl List.length; lia. }
  assert (Hceil := Qle_ceiling (inject_Z n / inject_Z columns)).
  assert (Hq : (inject_Z n <= inject_Z (Qceiling (inject_Z n / inject_Z columns))
                              * inject_Z columns)%Q).
  { apply Qle_trans with (inject_Z n / inject_Z columns * inject_Z columns)%Q.
    - assert (E : (inject_Z n / inject_Z columns * inject_Z columns == inject_Z n)%Q)
        by (field; exact Hnz).
      rewrite E. apply Qle_refl.
    - apply Qmult_le_compat_r; [exact Hceil|].
      change 0%Q with (inject_Z 0). rewrite <- Zle_Qle. lia. }
  rewrite <- inject_Z_mult, <- Zle_Qle in Hq. lia.
Qed.

(** X27.  The locked amount of a schedule stays between 0 and the amount
    the schedule locked: whatever the time, for a schedule with a locked
    amount and an unlock rate that are not negative and a positive unlock
    period. *)
Theorem locked_amount_between_zero_and_total (t0 t : Z) (L c p r : Q) :
  (0 <= L)%Q -> (0 < p)%Q -> (0 <= r)%Q ->
  (zero <= calculateLockedAmount (finiteSchedule t0 L c p r) (DateAt t))%num /\
  (calculateLockedAmount (finiteSchedule t0 L c p r) (DateAt t) <= Fin L)%num.
Proof.
  intros HL Hp Hr. rewrite calculateLockedAmount_finite by lra. split.
  - apply (le_Fin 0). apply remaining_nonneg, HL.
  - apply le_Fin. apply remaining_le; assumption.
Qed.

Lemma locked_amount_between_zero_and_total_witness :
  (zero <= calculateLockedAmount (finiteSchedule 0 250 24 24 100) (DateAt 172800000))%num /\
  (calculateLockedAmount (finiteSchedule 0 250 24 24 100) (DateAt 172800000) <= Fin 250)%num.
Proof.
  apply (locked_amount_between_zero_and_total 0 172800000 250 24 24 100).
  - discriminate.
  - reflexivity.
  - discriminate.
Defined.


(** X29.  The extender enumerates at most [ceil(L / r) + 1] unlock times for
    a schedule with a positive locked amount [L] and unlock rate [r]: the
    cliff end and one time per unlock period, so that the number of points
    it adds to the timeline is bounded by the schedules alone. *)
Theorem unlock_times_bounded_by_schedule
    (t0 : Z) (L c p r : Q) (cacheEndTime : Date) (times : list Z) :
  (0 < L)%Q -> (0 < r)%Q ->
  unlockTimesOf (finiteSchedule t0 L c p r) cacheEndTime = Some times ->
  Z.of_nat (List.length times) <= Qceiling (L / r) + 1.
Proof.
  intros HL Hr. unfold unlockTimesOf. simpl.
  rewrite div_Fin by lra.
  destruct (iterations _) as [count|] eqn:Hcount; [|discriminate].
  simpl bind. intros [= <-].
  assert (H0 : (0 <= L / r)%Q) by (apply Qle_shift_div_l; lra).
  rewrite <- (iterations_count _ count H0 Hcount).
  apply inj_le.
  etransitivity; [apply flat_map_length_le|rewrite length_seq; reflexivity].
  intro i. destruct (leb _ _); [|simpl; lia].
  destruct (unlockTimeAt _ _ _ i); simpl; lia.
Qed.

Lemma unlock_times_bounded_by_schedule_witness :
  exists times,
    unlockTimesOf (finiteSchedule 0 250 24 24 100) (DateAt (10 * 86400000)) = Some times /\
    Z.of_nat (List.length times) <= 3 + 1.
Proof.
  eexists. split; [reflexivity|].
  apply (unlock_times_bounded_by_schedule 0 250 24 24 100 (DateAt (10 * 86400000))).
  - reflexivity.
  - reflexivity.
  - reflexivity.
Defined.
